(** * PolyglotGraphBuilder: a shallow embedding of [polyglot_graph.py]

    The development follows the Python source top to bottom:

    - [PyStr]    the [str] operations the builder uses ([replace], [strip],
                 [startswith], [in], [split], [join], the [\w] class of [re]);
    - [ODict]    Python's insertion-ordered [dict];
    - [Nx]       the part of [networkx.DiGraph] the builder touches;
    - [Builder]  [PolyglotGraphBuilder] itself: the parser registry,
                 [get_node_id], [is_valid_identifier], [get_yaml_full_path],
                 [parse_file], [build_cross_reference] and [build];
    - [Exporters] its [export_mermaid] and [export_yaml_whole_repo];
    - [Repo]     [RepoGraphBuilder] of [graph_builder.py].

    A Python [str] is modelled by [string]; a character holds a code point
    below U+0100, and the Unicode-aware classes ([\w], [str.isspace]) are the
    ones CPython uses on that range.  The file system, tree-sitter's parsers
    and its query engine are outside the repository: they enter through the
    [world] record. *)

From Stdlib Require Import Bool Arith List Ascii String Lia.
Import ListNotations.
Local Open Scope string_scope.
Local Open Scope list_scope.

Set Implicit Arguments.

(* ================================================================== *)
(** ** Python strings *)

Module PyStr.

(** [s.replace(c, '')] for a one-character pattern [c]. *)
Fixpoint remove_char (c : ascii) (s : string) : string :=
  match s with
  | EmptyString => EmptyString
  | String d s' =>
      if Ascii.eqb d c then remove_char c s' else String d (remove_char c s')
  end.

(** [str.isspace] on one character (code points below U+0100):
    TAB, LF, VT, FF, CR, FS, GS, RS, US, SPACE, NEL, NBSP. *)
Definition isspace (c : ascii) : bool :=
  let n := nat_of_ascii c in
  (((9 <=? n) && (n <=? 13)) || ((28 <=? n) && (n <=? 32))
   || (n =? 133) || (n =? 160))%nat.

(** [s.lstrip(chars)], the set [chars] given by its membership test. *)
Fixpoint lstrip_chars (p : ascii -> bool) (s : string) : string :=
  match s with
  | EmptyString => EmptyString
  | String c s' => if p c then lstrip_chars p s' else s
  end.

(** [s.rstrip(chars)]: the scan from the right, written as a recursion
    that drops a character when everything after it has been dropped. *)
Fixpoint rstrip_chars (p : ascii -> bool) (s : string) : string :=
  match s with
  | EmptyString => EmptyString
  | String c s' =>
      match rstrip_chars p s' with
      | EmptyString => if p c then EmptyString else String c EmptyString
      | r => String c r
      end
  end.

(** [s.strip(chars)] *)
Definition strip_chars (p : ascii -> bool) (s : string) : string :=
  rstrip_chars p (lstrip_chars p s).

(** [s.strip()]: the characters stripped are the whitespace ones. *)
Definition strip (s : string) : string := strip_chars isspace s.

(** [s.startswith(p)] *)
Fixpoint startswith (s p : string) {struct p} : bool :=
  match p with
  | EmptyString => true
  | String c p' =>
      match s with
      | EmptyString => false
      | String d s' => Ascii.eqb d c && startswith s' p'
      end
  end.

(** [sub in s]: literal, case-sensitive substring test. *)
Fixpoint contains (s sub : string) : bool :=
  startswith s sub
  || match s with
     | EmptyString => false
     | String _ s' => contains s' sub
     end.

(** [c in s] for a one-character [c]. *)
Fixpoint has_char (c : ascii) (s : string) : bool :=
  match s with
  | EmptyString => false
  | String d s' => Ascii.eqb d c || has_char c s'
  end.

(** [s.split(c)] for a one-character separator: never empty, the pieces
    in order.  [split_last] is [s.split(c)[-1]]. *)
Fixpoint split (c : ascii) (s : string) : list string :=
  match s with
  | EmptyString => [EmptyString]
  | String d s' =>
      if Ascii.eqb d c then EmptyString :: split c s'
      else match split c s' with
           | [] => [String d EmptyString]
           | w :: ws => String d w :: ws
           end
  end.

Definition split_last (c : ascii) (s : string) : string :=
  List.last (split c s) EmptyString.

(** [sep.join(l)] *)
Fixpoint join (sep : string) (l : list string) : string :=
  match l with
  | [] => EmptyString
  | [x] => x
  | x :: r => x ++ sep ++ join sep r
  end.

(** The class [\w] of [re] on a [str] pattern: [str.isalnum] or [_].
    Below U+0100 the alphanumerics are the ASCII letters and digits, the
    ordinal indicators, the superscript digits, MICRO SIGN, the vulgar fractions, and
    the Latin-1 letters (U+00C0..U+00FF without the two operators U+00D7 and U+00F7). *)
Definition is_word (c : ascii) : bool :=
  let n := nat_of_ascii c in
  (((48 <=? n) && (n <=? 57)) || ((65 <=? n) && (n <=? 90))
   || ((97 <=? n) && (n <=? 122)) || (n =? 95)
   || (n =? 170) || (n =? 178) || (n =? 179) || (n =? 181)
   || (n =? 185) || (n =? 186) || ((188 <=? n) && (n <=? 190))
   || ((192 <=? n) && (n <=? 255) && negb (n =? 215) && negb (n =? 247)))%nat.

(** The ASCII set [[A-Za-z0-9_]] the specification writes for [\w]. *)
Definition is_ascii_word (c : ascii) : bool :=
  let n := nat_of_ascii c in
  (((48 <=? n) && (n <=? 57)) || ((65 <=? n) && (n <=? 90))
   || ((97 <=? n) && (n <=? 122)) || (n =? 95))%nat.

(** [all(p(c) for c in s)] *)
Fixpoint forallb_str (p : ascii -> bool) (s : string) : bool :=
  match s with
  | EmptyString => true
  | String c s' => p c && forallb_str p s'
  end.

(** [re.search(r'[^...]', s)] for a negated class: some character is
    outside the class. *)
Definition search_outside (cls : ascii -> bool) (s : string) : bool :=
  negb (forallb_str cls s).

End PyStr.

(* ================================================================== *)
(** ** Python's insertion-ordered [dict] *)

Module ODict.
Section Defs.
Variables K V : Type.
Variable eqb : K -> K -> bool.

Definition t := list (K * V).

(** [d.get(k)] *)
Fixpoint get (d : t) (k : K) : option V :=
  match d with
  | [] => None
  | (k', v) :: r => if eqb k k' then Some v else get r k
  end.

(** [k in d] *)
Definition mem (d : t) (k : K) : bool :=
  match get d k with Some _ => true | None => false end.

(** [d[k] = v]: an existing key keeps its place, a new key goes last. *)
Fixpoint set (d : t) (k : K) (v : V) : t :=
  match d with
  | [] => [(k, v)]
  | (k', v') :: r => if eqb k k' then (k, v) :: r else (k', v') :: set r k v
  end.

(** [d.update(e)] *)
Definition update (d e : t) : t :=
  fold_left (fun acc kv => set acc (fst kv) (snd kv)) e d.
End Defs.
End ODict.

(* ================================================================== *)
(** ** [networkx.DiGraph] *)

Module Nx.

(** The attribute dictionary of a node.  The builder only ever writes the
    keys [type], [lang] and [name]; an absent key is [None]. *)
Record attrs := Attrs {
  a_type : option string;
  a_lang : option string;
  a_name : option string }.

Definition no_attrs : attrs := Attrs None None None.

Definition or_old (new old : option string) : option string :=
  match new with Some _ => new | None => old end.

(** [old.update(new)] *)
Definition update_attrs (old new : attrs) : attrs :=
  Attrs (or_old (a_type new) (a_type old))
        (or_old (a_lang new) (a_lang old))
        (or_old (a_name new) (a_name old)).

Definition edge := (string * string)%type.

Definition edge_eqb (e1 e2 : edge) : bool :=
  String.eqb (fst e1) (fst e2) && String.eqb (snd e1) (snd e2).

(** A [DiGraph] holds one attribute dictionary per node and one per
    ordered pair of nodes; every edge the builder adds carries exactly the
    key [relation], so an edge's dictionary is its relation. *)
Record DiGraph := Graph {
  nodes : ODict.t string attrs;
  edges : ODict.t edge string }.

Definition empty : DiGraph := Graph [] [].

Definition node_get (g : DiGraph) (n : string) : option attrs :=
  ODict.get String.eqb (nodes g) n.

Definition has_node (g : DiGraph) (n : string) : bool :=
  ODict.mem String.eqb (nodes g) n.

Definition edge_get (g : DiGraph) (u v : string) : option string :=
  ODict.get edge_eqb (edges g) (u, v).

(** [G.add_node(n, **a)]: a new node starts from the empty dictionary,
    then the given attributes are merged in. *)
Definition add_node (g : DiGraph) (n : string) (a : attrs) : DiGraph :=
  let old := match node_get g n with Some o => o | None => no_attrs end in
  Graph (ODict.set String.eqb (nodes g) n (update_attrs old a)) (edges g).

(** [G.add_edge(u, v, relation=r)]: missing end points are created with
    empty dictionaries, [u] first; then the edge's dictionary is updated. *)
Definition add_edge (g : DiGraph) (u v : string) (r : string) : DiGraph :=
  let g1 := if has_node g u then g else add_node g u no_attrs in
  let g2 := if has_node g1 v then g1 else add_node g1 v no_attrs in
  Graph (nodes g2) (ODict.set edge_eqb (edges g2) (u, v) r).

(** [[n for n, a in G.nodes(data=True) if a.get('type') == t]] *)
Definition has_type (t : string) (a : attrs) : bool :=
  match a_type a with Some t' => String.eqb t' t | None => false end.

Definition nodes_of_type (g : DiGraph) (t : string) : list string :=
  map fst (filter (fun na => has_type t (snd na)) (nodes g)).

(** Incoming edges of [v] with relation [r], as sources. *)
Definition in_edges (g : DiGraph) (v : string) (r : string) : list string :=
  map (fun e => fst (fst e))
      (filter (fun e => String.eqb (snd (fst e)) v && String.eqb (snd e) r)
              (edges g)).

End Nx.

(* ================================================================== *)
(** ** [os.path] on the paths the walk produces *)

Module OsPath.
Import PyStr.

(** [os.path.basename(p)]: what follows the last separator. *)
Definition basename (p : string) : string := split_last "/" p.

(** [os.path.splitext(name)[1]] for a base name: the text from the last
    dot on, unless only dots precede that dot. *)
Definition splitext_ext (name : string) : string :=
  let segs := split "." name in
  if existsb (fun s => negb (String.eqb s "")) (removelast segs)
  then "." ++ List.last segs ""
  else "".

(** [os.path.join(a, b)] for a relative [b]. *)
Definition join (a b : string) : string :=
  if String.eqb a "" then b
  else if String.eqb (split_last "/" a) "" then a ++ b
  else a ++ "/" ++ b.

End OsPath.

(* ================================================================== *)
(** ** [PolyglotGraphBuilder] *)

Module Builder.
Import PyStr Nx.

(** *** What lies outside the repository *)

Definition exn := string.

Inductive result (A : Type) : Type :=
| Ok (a : A)
| Raise (e : exn).
Arguments Ok {A} a.
Arguments Raise {A} e.

(** The grammars [get_language] / [get_parser] are asked for. *)
Inductive grammar := Python | Yaml | Dockerfile | Hcl.

(** A tree-sitter node, as far as the builder reads it: its identity (what
    [==] compares), [type], the text of its byte range, the child in the
    field [key] (identity and text), and [parent]. *)
#[warning="-register-all"]
Inductive ts_node := TsNode {
  node_id : nat;
  node_type : string;
  node_text : string;
  key_child : option (nat * string);
  parent : option ts_node }.

(** [query.captures(root)]: a list of pairs in the older binding, a
    dictionary from capture name to nodes in the newer one. *)
Inductive captures :=
| CapList (l : list (ts_node * string))
| CapDict (d : list (string * list ts_node)).

(** One entry of [self.parsers]. *)
Record config := Config {
  lang : grammar;
  defs : string;
  calls : string }.

Inductive entry :=
| Grammar (c : config)
| Alias (target : string).

(** The environment of one run.  [read_text p] is
    [open(os.path.join(repo_path, p), "r", encoding="utf-8").read()];
    [ts_captures c code] is parsing [code] with [c]'s parser, compiling
    [c]'s [defs] query and running it on the root; [walk] is what
    [os.walk(repo_path)] yields, each directory given relative to
    [repo_path] (the empty string for [repo_path] itself). *)
Record world := World {
  repo_path : string;
  read_text : string -> result string;
  ts_captures : config -> string -> result captures;
  walk : list (string * list string) }.

(** What the builder prints when a file fails. *)
Inductive event := ParseWarning (rel_path : string) (e : exn).

Record builder := MkBuilder {
  graph : DiGraph;
  out : list event }.

(** *** [__init__] *)

Definition parsers_literal : ODict.t string entry :=
  [ (".py", Grammar (Config Python
       "(class_definition name: (identifier) @name) @def.class (function_definition name: (identifier) @name) @def.func"
       "(call function: (identifier) @call) @ref (call function: (attribute attribute: (identifier) @call)) @ref"));
    (".yaml", Grammar (Config Yaml
       "(block_mapping_pair key: (flow_node) @name) @def.key" ""));
    (".yml", Alias ".yaml");
    ("Dockerfile", Grammar (Config Dockerfile
       "(from_instruction (image_spec) @name) @def.image" ""));
    (".tf", Grammar (Config Hcl
       "(block (identifier) @type (string_lit) @name) @def.resource" "")) ].

(** The alias loop: every alias key is rebound to the entry it names. *)
Definition keys_to_add (p : ODict.t string entry) : ODict.t string entry :=
  fold_left
    (fun acc kv =>
       match snd kv with
       | Alias target =>
           match ODict.get String.eqb p target with
           | Some e => ODict.set String.eqb acc (fst kv) e
           | None => acc
           end
       | Grammar _ => acc
       end)
    p [].

Definition parsers : ODict.t string entry :=
  ODict.update String.eqb parsers_literal (keys_to_add parsers_literal).

Definition init : builder := MkBuilder Nx.empty [].

(** *** [get_node_id] *)

Definition quote2 : ascii := ascii_of_nat 34.
Definition quote1 : ascii := ascii_of_nat 39.

(** The two [replace] calls [get_node_id] and [parse_file] both make:
    every double quote, then every single quote, replaced by nothing. *)
Definition unquote (name : string) : string :=
  remove_char quote1 (remove_char quote2 name).

Definition get_node_id (rel_path name : string) : string :=
  let clean_name := unquote name in
  rel_path ++ "::" ++ clean_name.

(** *** [is_valid_identifier] *)

(** The class of the pattern's bracket, [\w], [-], [.] and [:]. *)
Definition allowed_char (c : ascii) : bool :=
  is_word c || Ascii.eqb c "-" || Ascii.eqb c "." || Ascii.eqb c ":".

Definition is_valid_identifier (name : string) : bool :=
  if String.eqb name "" then false
  else if search_outside allowed_char name then false
  else true.

(** *** [get_yaml_full_path] *)

(** One turn of the [while curr] loop at ancestor [curr]. *)
Definition climb_step (node : ts_node) (curr : ts_node) (path : list string)
  : list string :=
  if String.eqb (node_type curr) "block_mapping_pair" then
    match key_child curr with
    | Some (kid, key_text) =>
        if negb (Nat.eqb kid (node_id node)) then key_text :: path else path
    | None => path
    end
  else path.

Fixpoint climb (node : ts_node) (curr : ts_node) (path : list string)
  : list string :=
  let path' := climb_step node curr path in
  match parent curr with
  | Some p => climb node p path'
  | None => path'
  end.

Definition get_yaml_full_path (node : ts_node) : string :=
  let path := [node_text node] in
  join "." (match parent node with
            | Some p => climb node p path
            | None => path
            end).

(** *** [parse_file] *)

(** The two shapes of [captures] brought to one list of pairs. *)
Definition capture_list (c : captures) : list (ts_node * string) :=
  match c with
  | CapList l => l
  | CapDict d =>
      flat_map (fun kv => map (fun node => (node, fst kv)) (snd kv)) d
  end.

Definition is_yaml_ext (ext : string) : bool :=
  String.eqb ext ".yaml" || String.eqb ext ".yml".

(** Step 1 of the loop body: the text a capture names. *)
Definition raw_name (ext : string) (node : ts_node) : string :=
  if is_yaml_ext ext then get_yaml_full_path node else node_text node.

(** Step 2: both [replace] calls (the double quote, then the single
    quote, each by the empty string) and [strip()]. *)
Definition clean_name (name : string) : string :=
  strip (unquote name).

(** Step 4: the node and its [contains] edge. *)
Definition add_definition (rel_path name : string) (g : DiGraph) : DiGraph :=
  let nid := get_node_id rel_path name in
  let g1 := add_node g nid (Attrs (Some "definition") None (Some name)) in
  add_edge g1 rel_path nid "contains".

(** The body of [for node, capture_name in capture_list]. *)
Definition process_capture (rel_path ext : string) (g : DiGraph)
           (cap : ts_node * string) : DiGraph :=
  if String.eqb (snd cap) "name" then
    let name := clean_name (raw_name ext (fst cap)) in
    if negb (is_valid_identifier name) then g
    else add_definition rel_path name g
  else g.

(** The statements of the [try] block that can raise: reading the file,
    parsing it and running the query (and [config['parser']] on an entry
    that has none).  All of them precede the loop, whose body is total:
    the byte ranges of tree-sitter nodes fall on character boundaries, so
    the slices decode. *)
Definition load_captures (w : world) (rel_path : string) (e : entry)
  : result (list (ts_node * string)) :=
  match read_text w rel_path with
  | Raise x => Raise x
  | Ok code_str =>
      match e with
      | Alias _ => Raise "KeyError: 'parser'"
      | Grammar c =>
          match ts_captures w c code_str with
          | Raise x => Raise x
          | Ok caps => Ok (capture_list caps)
          end
      end
  end.

(** [self.parsers.get(...)] as [parse_file] asks it. *)
Definition lookup_config (filename : string) : option entry :=
  if String.eqb filename "Dockerfile"
  then ODict.get String.eqb parsers "Dockerfile"
  else ODict.get String.eqb parsers (OsPath.splitext_ext filename).

(** The attributes of a file node: [type="file", lang=ext or 'docker']. *)
Definition file_attrs (ext : string) : attrs :=
  Attrs (Some "file") (Some (if String.eqb ext "" then "docker" else ext))
        None.

(** [parse_file]; the argument is the file's path relative to [repo_path],
    which is what [os.path.relpath(file_path, self.repo_path)] returns for
    the paths [build] passes. *)
Definition parse_file (w : world) (rel_path : string) (b : builder) : builder :=
  let filename := OsPath.basename rel_path in
  let ext := OsPath.splitext_ext filename in
  match lookup_config filename with
  | None => b
  | Some e =>
      let g := add_node (graph b) rel_path (file_attrs ext) in
      match load_captures w rel_path e with
      | Ok caps =>
          MkBuilder (fold_left (process_capture rel_path ext) caps g) (out b)
      | Raise x =>
          MkBuilder g (out b ++ [ParseWarning rel_path x])
      end
  end.

(** *** [build_cross_reference] *)

Definition index := ODict.t string (list string).

(** [if k not in definitions: definitions[k] = []] then
    [definitions[k].append(node)]. *)
Definition index_append (d : index) (k node : string) : index :=
  let l := match ODict.get String.eqb d k with Some l => l | None => [] end in
  ODict.set String.eqb d k (l ++ [node]).

(** The body of the indexing loop at one node of the graph. *)
Definition index_node (d : index) (na : string * attrs) : index :=
  let (node, attr) := na in
  if has_type "definition" attr then
    match a_name attr with
    | Some name =>
        if String.eqb name "" then d
        else
          let d1 := index_append d name node in
          if has_char "." name
          then index_append d1 (split_last "." name) node
          else d1
    | None => d
    end
  else d.

Definition build_index (g : DiGraph) : index :=
  fold_left index_node (nodes g) [].

(** [for target_node in target_nodes], with the self-reference guard. *)
Definition link_targets (file_node : string) (g : DiGraph)
           (target_nodes : list string) : DiGraph :=
  fold_left
    (fun g target_node =>
       if negb (startswith target_node file_node)
       then add_edge g file_node target_node "references"
       else g)
    target_nodes g.

(** The body of [for def_name, target_nodes in definitions.items()]. *)
Definition scan_name (file_node content : string) (g : DiGraph)
           (kv : string * list string) : DiGraph :=
  let (def_name, target_nodes) := kv in
  if (3 <? String.length def_name)%nat && contains content def_name
  then link_targets file_node g target_nodes
  else g.

(** The body of [for file_node in file_nodes], with its bare [except]. *)
Definition scan_file (w : world) (definitions : index) (g : DiGraph)
           (file_node : string) : DiGraph :=
  match read_text w file_node with
  | Ok content => fold_left (scan_name file_node content) definitions g
  | Raise _ => g
  end.

Definition resolve (w : world) (g : DiGraph) : DiGraph :=
  let definitions := build_index g in
  let file_nodes := nodes_of_type g "file" in
  fold_left (scan_file w definitions) file_nodes g.

Definition build_cross_reference (w : world) (b : builder) : builder :=
  MkBuilder (resolve w (graph b)) (out b).

(** *** [build] *)

Definition ignored (root : string) : bool :=
  contains root ".git" || contains root "venv" || contains root "__pycache__".

(** The directory [os.walk] reports for a directory given relative to
    [repo_path]. *)
Definition root_of (w : world) (rel_dir : string) : string :=
  if String.eqb rel_dir "" then repo_path w
  else OsPath.join (repo_path w) rel_dir.

Definition scan_dir (w : world) (b : builder) (d : string * list string)
  : builder :=
  let (rel_dir, files) := d in
  if ignored (root_of w rel_dir) then b
  else fold_left (fun b file => parse_file w (OsPath.join rel_dir file) b)
                 files b.

Definition ingest (w : world) (b : builder) : builder :=
  fold_left (scan_dir w) (walk w) b.

Definition build (w : world) (b : builder) : builder :=
  build_cross_reference w (ingest w b).

End Builder.

(* ================================================================== *)
(** ** The specification's wording, as definitions

    Each definition here follows a sentence of the specification, not the
    source; the theorems below compare them with [Builder]. *)

Module Spec.
Import PyStr Builder.

(** "every character is in the set [[A-Za-z0-9_.:-]]" *)
Definition spec_char (c : ascii) : bool :=
  is_ascii_word c || Ascii.eqb c "-" || Ascii.eqb c "." || Ascii.eqb c ":".

Definition is_quote (c : ascii) : bool :=
  Ascii.eqb c quote2 || Ascii.eqb c quote1.

(** "Strip surrounding quote characters and whitespace from the raw
    text": what is taken off both ends is any run of quotes and
    whitespace; the interior is kept as it is. *)
Definition strippable (c : ascii) : bool := is_quote c || isspace c.

Definition spec_clean (raw : string) : string :=
  strip_chars strippable raw.

Definition has_quote (s : string) : bool :=
  has_char quote2 s || has_char quote1 s.

(** "the raw text with every quote character removed": the characters of
    the text that are no quotes, in their order. *)
Definition without_quotes (raw : string) : string :=
  string_of_list_ascii
    (filter (fun c => negb (is_quote c)) (list_ascii_of_string raw)).

(** The list without the run of characters satisfying [p] that heads it. *)
Fixpoint drop_while (p : ascii -> bool) (l : list ascii) : list ascii :=
  match l with
  | [] => []
  | c :: r => if p c then drop_while p r else l
  end.

(** "its surrounding whitespace removed": the whitespace heading the text
    is dropped, then the whitespace heading what is left read backwards. *)
Definition trimmed (s : string) : string :=
  string_of_list_ascii
    (rev (drop_while isspace
            (rev (drop_while isspace (list_ascii_of_string s))))).

(** A character of the ASCII range. *)
Definition is_ascii (c : ascii) : bool := (nat_of_ascii c <? 128)%nat.

(** A cleaned name that is not empty and stays inside the class of the
    pattern of [is_valid_identifier]. *)
Definition accepted (name : string) : bool :=
  negb (String.eqb name "") && forallb_str allowed_char name.

(** The set the specification writes, widened by the word characters
    beyond ASCII. *)
Definition spec_char_or_word (c : ascii) : bool :=
  spec_char c || (negb (is_ascii c) && is_word c).

(** "reading or parsing one file fails": the read raises, or the read
    succeeds and the parser or its query raises on what was read. *)
Definition extraction_fails (w : world) (rel_path : string) (e : entry)
           (x : exn) : Prop :=
  read_text w rel_path = Raise x
  \/ exists code c, read_text w rel_path = Ok code /\ e = Grammar c
                    /\ ts_captures w c code = Raise x.

(** The ancestor chain of a node, nearest first. *)
Fixpoint ancestors (n : ts_node) : list ts_node :=
  match parent n with
  | Some p => p :: ancestors p
  | None => []
  end.

(** The key text an ancestor contributes: it must be a mapping pair whose
    key is a node other than the captured one (for the pair the captured
    key itself heads, the key is the captured node, not a sibling). *)
Definition enclosing_key (node anc : ts_node) : option string :=
  if String.eqb (node_type anc) "block_mapping_pair" then
    match key_child anc with
    | Some (kid, key_text) =>
        if Nat.eqb kid (node_id node) then None else Some key_text
    | None => None
    end
  else None.

Fixpoint keys_of (node : ts_node) (l : list ts_node) : list string :=
  match l with
  | [] => []
  | a :: r =>
      match enclosing_key node a with
      | Some k => k :: keys_of node r
      | None => keys_of node r
      end
  end.

(** "collecting the sibling key text of every enclosing mapping-pair
    ancestor, and joining them with the captured node's own text,
    outermost-first". *)
Definition qualified_path (node : ts_node) : string :=
  join "." (rev (keys_of node (ancestors node)) ++ [node_text node]).

(** What the index lists under a key; nothing when the key is absent. *)
Definition listed (d : index) (k : string) : list string :=
  match ODict.get String.eqb d k with Some l => l | None => [] end.

(** No character of a path is a colon. *)
Definition colon_free (p : string) : bool := negb (has_char ":" p).

(** The relative paths [build] hands to [parse_file]. *)
Definition walked_paths (w : world) : list string :=
  flat_map (fun d => map (OsPath.join (fst d)) (snd d))
           (filter (fun d => negb (ignored (root_of w (fst d)))) (walk w)).

End Spec.

(* ================================================================== *)
(** ** Small repositories to run the builder on *)

Module Scenarios.
Import PyStr Nx Builder.

Definition nl : string := String (ascii_of_nat 10) EmptyString.

(** The syntax tree of

<<
database:
db_host: localhost
>>
    down to the two keys the [defs] query of the YAML grammar captures. *)
Definition yaml_text : string :=
  "database:" ++ nl ++ "  db_host: localhost".

Definition t_stream := TsNode 0 "stream" yaml_text None None.
Definition t_document := TsNode 1 "document" yaml_text None (Some t_stream).
Definition t_block := TsNode 2 "block_node" yaml_text None (Some t_document).
Definition t_mapping :=
  TsNode 3 "block_mapping" yaml_text None (Some t_block).
Definition t_pair_database :=
  TsNode 4 "block_mapping_pair" yaml_text (Some (5, "database"))
         (Some t_mapping).
Definition t_key_database :=
  TsNode 5 "flow_node" "database" None (Some t_pair_database).
Definition t_value_block :=
  TsNode 6 "block_node" "db_host: localhost" None (Some t_pair_database).
Definition t_value_mapping :=
  TsNode 7 "block_mapping" "db_host: localhost" None (Some t_value_block).
Definition t_pair_host :=
  TsNode 8 "block_mapping_pair" "db_host: localhost" (Some (9, "db_host"))
         (Some t_value_mapping).
Definition t_key_host :=
  TsNode 9 "flow_node" "db_host" None (Some t_pair_host).

Definition yaml_captures : captures :=
  CapList [ (t_pair_database, "def.key"); (t_key_database, "name");
            (t_pair_host, "def.key"); (t_key_host, "name") ].

(** A one-key document, [key: 1]. *)
Definition flat_captures (key : string) : captures :=
  let pair := TsNode 4 "block_mapping_pair" (key ++ ": 1") (Some (5, key))
                     (Some (TsNode 3 "block_mapping" (key ++ ": 1") None None)) in
  CapList [ (pair, "def.key");
            (TsNode 5 "flow_node" key None (Some pair), "name") ].

Definition no_captures : captures := CapList [].

(** A file of an unregistered format next to a Python file. *)
Definition w_readme : world :=
  World "repo"
        (fun p => if String.eqb p "README.md" then Ok "# notes"
                  else Ok "x = 1")
        (fun _ _ => Ok no_captures)
        [ ("", ["README.md"; "main.py"]) ].

(** The configuration scenario: [config.yaml] defines
    [database.db_host], [src/main.py] mentions [db_host]. *)
Definition w_config : world :=
  World "repo"
        (fun p => if String.eqb p "config.yaml" then Ok yaml_text
                  else if String.eqb p "src/main.py"
                       then Ok "print(settings.db_host)"
                       else Raise "FileNotFoundError")
        (fun c _ => match lang c with
                    | Yaml => Ok yaml_captures
                    | _ => Ok no_captures
                    end)
        [ ("", ["config.yaml"]); ("src", ["main.py"]) ].

(** The same two contents under names of which one is a prefix of the
    other. *)
Definition w_prefix : world :=
  World "repo"
        (fun p => if String.eqb p "main.py.yaml" then Ok yaml_text
                  else if String.eqb p "main.py"
                       then Ok "print(settings.db_host)"
                       else Raise "FileNotFoundError")
        (fun c _ => match lang c with
                    | Yaml => Ok yaml_captures
                    | _ => Ok no_captures
                    end)
        [ ("", ["main.py"; "main.py.yaml"]) ].

(** Two YAML files whose names and keys spell the same identity. *)
Definition w_collide : world :=
  World "repo"
        (fun p => if String.eqb p "x.yaml" then Ok "y.yaml::k: 1"
                  else if String.eqb p "x.yaml::y.yaml" then Ok "k: 1"
                       else Raise "FileNotFoundError")
        (fun _ code => if String.eqb code "k: 1"
                       then Ok (flat_captures "k")
                       else Ok (flat_captures "y.yaml::k"))
        [ ("", ["x.yaml"; "x.yaml::y.yaml"]) ].

(** A Python file that cannot be decoded, before a YAML file that can. *)
Definition w_broken : world :=
  World "repo"
        (fun p => if String.eqb p "config.yaml" then Ok yaml_text
                  else Raise "UnicodeDecodeError")
        (fun c _ => match lang c with
                    | Yaml => Ok yaml_captures
                    | _ => Ok no_captures
                    end)
        [ ("", ["broken.py"; "config.yaml"]) ].

(** An identifier with a letter beyond ASCII (U+00E9), and a capture of
    it from a Python file; a string literal of a Terraform file that is
    two double quotes and nothing between them. *)
Definition cafe : string := "caf" ++ String (ascii_of_nat 233) EmptyString.

Definition cap_cafe : ts_node * string :=
  (TsNode 7 "identifier" cafe None None, "name").

Definition cap_empty : ts_node * string :=
  (TsNode 7 "string_lit" (String quote2 (String quote2 EmptyString)) None None,
   "name").

(** An index that already lists another node under [db_host]. *)
Definition d_host : index := [ ("db_host", ["other.yaml::db_host"]) ].

Definition a_db_host : attrs :=
  Attrs (Some "definition") None (Some "database.db_host").

End Scenarios.

(* ================================================================== *)
(** ** The exporters of [PolyglotGraphBuilder] *)

Module Exporters.
Import PyStr Nx Builder.

(** [text.replace(c, r)] for one-character [c] and [r]. *)
Fixpoint replace_char (c r : ascii) (s : string) : string :=
  match s with
  | EmptyString => EmptyString
  | String d s' =>
      String (if Ascii.eqb d c then r else d) (replace_char c r s')
  end.

(** [clean_id], local to [export_mermaid]: the five [replace] calls in the
    order the source chains them. *)
Definition clean_id (text : string) : string :=
  replace_char " " "_"
    (replace_char "-" "_"
       (replace_char ":" "_"
          (replace_char "." "_" (replace_char "/" "_" text)))).

(** [[v for u, v, d in G.out_edges(n, data=True) if d['relation'] == r]] *)
Definition out_edges (g : DiGraph) (n r : string) : list string :=
  map (fun e => snd (fst e))
      (filter (fun e => String.eqb (fst (fst e)) n && String.eqb (snd e) r)
              (edges g)).

(** [G.edges(data=True)]: node by node in the order of the node table, the
    out-edges of each node in the order they were added. *)
Definition edges_iter (g : DiGraph) : list (edge * string) :=
  flat_map (fun n => filter (fun e => String.eqb (fst (fst e)) n) (edges g))
           (map fst (nodes g)).

(** [self.graph.nodes[n]['name']]: a [KeyError] when the node or the key is
    missing. *)
Definition name_of (g : DiGraph) (n : string) : result string :=
  match node_get g n with
  | Some a =>
      match a_name a with
      | Some name => Ok name
      | None => Raise "KeyError: 'name'"
      end
  | None => Raise "KeyError"
  end.

(** [self.graph.nodes[ref].get('name', ref)] *)
Definition ref_name (g : DiGraph) (ref : string) : result string :=
  match node_get g ref with
  | Some a => Ok (match a_name a with Some name => name | None => ref end)
  | None => Raise "KeyError"
  end.

(** A comprehension or loop whose body may raise: the first exception ends
    it. *)
Fixpoint map_result (A B : Type) (f : A -> result B) (l : list A)
  : result (list B) :=
  match l with
  | [] => Ok []
  | x :: r =>
      match f x with
      | Raise e => Raise e
      | Ok y =>
          match map_result f r with
          | Raise e => Raise e
          | Ok ys => Ok (y :: ys)
          end
      end
  end.

(** *** [export_mermaid] *)

(** The three icons of the source: WRENCH for [.py], SPOUTING WHALE for
    [Dockerfile], GEAR otherwise. *)
Inductive icon := Wrench | Whale | Gear.

Definition icon_of (lang : string) : icon :=
  if String.eqb lang ".py" then Wrench
  else if String.eqb lang "Dockerfile" then Whale
  else Gear.

(** One line of the chart, by the f-string that formats it; the result of
    [export_mermaid] is these lines joined by newlines. *)
Inductive mermaid_line :=
| Flowchart
| SubgraphOpen (f_id base lang : string)
| Anchor (f_id base : string)
| Style (f_id : string)
| Child (c_id : string) (i : icon) (c_name : string)
| Link (f_id c_id : string)
| SubgraphEnd
| Arrow (u_id v_id : string).

(** [self.graph.nodes[f].get('lang', '')] *)
Definition lang_attr (g : DiGraph) (f : string) : string :=
  match node_get g f with
  | Some a => match a_lang a with Some l => l | None => "" end
  | None => ""
  end.

Definition mermaid_child (g : DiGraph) (f_id lang child : string)
  : result (list mermaid_line) :=
  match name_of g child with
  | Raise e => Raise e
  | Ok c_name =>
      Ok [ Child (clean_id child) (icon_of lang) c_name;
           Link f_id (clean_id child) ]
  end.

(** The body of [for f in files]. *)
Definition mermaid_file (g : DiGraph) (f : string)
  : result (list mermaid_line) :=
  let f_id := clean_id f in
  let lang := lang_attr g f in
  match map_result (mermaid_child g f_id lang) (out_edges g f "contains") with
  | Raise e => Raise e
  | Ok children =>
      Ok ([ SubgraphOpen f_id (OsPath.basename f) lang;
            Anchor f_id (OsPath.basename f);
            Style f_id ]
          ++ List.concat children ++ [SubgraphEnd])
  end.

Definition export_mermaid (g : DiGraph) : result (list mermaid_line) :=
  match map_result (mermaid_file g) (nodes_of_type g "file") with
  | Raise e => Raise e
  | Ok blocks =>
      Ok (Flowchart :: List.concat blocks
          ++ map (fun e => Arrow (clean_id (fst (fst e)))
                                 (clean_id (snd (fst e))))
                 (filter (fun e => String.eqb (snd e) "references")
                         (edges_iter g)))
  end.

(** *** [export_yaml_whole_repo] *)

(** One element of [repo_data]; a key deleted for being empty is [None]. *)
Record file_entry := FileEntry {
  fe_path : string;
  fe_source_code : string;
  fe_definitions : option (list string);
  fe_references_to : option (list string) }.

(** [if not l: del ...] *)
Definition unless_empty (l : list string) : option (list string) :=
  match l with [] => None | _ => Some l end.

(** The body of [for f_node in file_nodes]. *)
Definition yaml_entry (w : world) (include_source : bool) (g : DiGraph)
           (f_node : string) : result file_entry :=
  let source_content :=
    if include_source then
      match read_text w f_node with
      | Ok text => text
      | Raise _ => "[Binary or Unreadable]"
      end
    else "" in
  match map_result (name_of g) (out_edges g f_node "contains") with
  | Raise e => Raise e
  | Ok definitions =>
      match map_result (ref_name g) (out_edges g f_node "references") with
      | Raise e => Raise e
      | Ok references_to =>
          Ok (FileEntry f_node source_content
                        (unless_empty definitions)
                        (unless_empty references_to))
      end
  end.

(** [repo_data], what [export_yaml_whole_repo] hands to [yaml.dump]. *)
Definition export_yaml_whole_repo (w : world) (include_source : bool)
           (g : DiGraph) : result (list file_entry) :=
  map_result (yaml_entry w include_source g) (nodes_of_type g "file").

End Exporters.

(* ================================================================== *)
(** ** [RepoGraphBuilder], the Python-only builder of [graph_builder.py] *)

Module Repo.
Import PyStr Builder.

(** *** Its graph *)

(** The attribute dictionary of a node; [RepoGraphBuilder] writes the keys
    [type], [path], [name] and [file]. *)
Record rattrs := RAttrs {
  r_type : option string;
  r_path : option string;
  r_name : option string;
  r_file : option string }.

Definition no_rattrs : rattrs := RAttrs None None None None.

Definition update_rattrs (old new : rattrs) : rattrs :=
  RAttrs (Nx.or_old (r_type new) (r_type old))
         (Nx.or_old (r_path new) (r_path old))
         (Nx.or_old (r_name new) (r_name old))
         (Nx.or_old (r_file new) (r_file old)).

Record RGraph := MkRGraph {
  rnodes : ODict.t string rattrs;
  redges : ODict.t Nx.edge string }.

Definition rnode_get (g : RGraph) (n : string) : option rattrs :=
  ODict.get String.eqb (rnodes g) n.

Definition rhas_node (g : RGraph) (n : string) : bool :=
  ODict.mem String.eqb (rnodes g) n.

Definition redge_get (g : RGraph) (u v : string) : option string :=
  ODict.get Nx.edge_eqb (redges g) (u, v).

Definition radd_node (g : RGraph) (n : string) (a : rattrs) : RGraph :=
  let old := match rnode_get g n with Some o => o | None => no_rattrs end in
  MkRGraph (ODict.set String.eqb (rnodes g) n (update_rattrs old a))
           (redges g).

Definition radd_edge (g : RGraph) (u v r : string) : RGraph :=
  let g1 := if rhas_node g u then g else radd_node g u no_rattrs in
  let g2 := if rhas_node g1 v then g1 else radd_node g1 v no_rattrs in
  MkRGraph (rnodes g2) (ODict.set Nx.edge_eqb (redges g2) (u, v) r).

(** *** Text and byte offsets *)

(** [code[a:b]] on a [str], for offsets that are not negative. *)
Definition slice (code : string) (a b : nat) : string :=
  substring a (b - a) code.

(** The length of the UTF-8 encoding of a text whose characters are below
    U+0100: one byte below U+0080, two from there on. *)
Fixpoint utf8_len (s : string) : nat :=
  match s with
  | EmptyString => 0
  | String c s' =>
      (if (nat_of_ascii c <? 128)%nat then 1 else 2) + utf8_len s'
  end.

(** The byte offset, in [bytes(code, "utf8")], of the character at index
    [i] of [code]: what tree-sitter reports as [start_byte] or [end_byte]
    for a node that begins or ends there. *)
Definition byte_offset (code : string) (i : nat) : nat :=
  utf8_len (substring 0 i code).

(** The characters of a text that take two bytes. *)
Fixpoint wide_chars (s : string) : nat :=
  match s with
  | EmptyString => 0
  | String c s' =>
      (if (nat_of_ascii c <? 128)%nat then 0 else 1) + wide_chars s'
  end.

(** [s.endswith(suffix)] *)
Definition endswith (s suffix : string) : bool :=
  (String.length suffix <=? String.length s)%nat
  && String.eqb (substring (String.length s - String.length suffix)
                           (String.length suffix) s)
                suffix.

(** *** The builder *)

(** A capture of a query: [start_byte], [end_byte] of the node and the
    capture name. *)
Definition rcapture := (nat * nat * string)%type.

(** The environment of a run.  [rw_read] and [rw_walk] are as for
    [PolyglotGraphBuilder]; [rw_exists p] is
    [os.path.exists(os.path.join(repo_path, p))]; [rw_defs] and [rw_calls]
    run [DEF_QUERY_SCM] and [CALL_QUERY_SCM] on the parsed text;
    [rw_set_order l] is the order in which Python iterates the [set] built
    by adding the elements of [l]. *)
Record rworld := RWorld {
  rw_repo_path : string;
  rw_walk : list (string * list string);
  rw_read : string -> result string;
  rw_exists : string -> bool;
  rw_defs : string -> result (list rcapture);
  rw_calls : string -> result (list rcapture);
  rw_set_order : list string -> list string }.

Record rstate := RState {
  rgraph : RGraph;
  global_definitions : ODict.t string (list string) }.

Definition rinit : rstate := RState (MkRGraph [] []) [].

(** How a method ends: it returns, or an exception leaves it; either way
    the builder is in some state. *)
Inductive run :=
| Returned (s : rstate)
| Raised (s : rstate) (e : exn).

(** [for x in l: body(x)], an exception ending the loop. *)
Fixpoint for_each (A : Type) (body : rstate -> A -> run) (l : list A)
         (s : rstate) : run :=
  match l with
  | [] => Returned s
  | x :: r =>
      match body s x with
      | Returned s' => for_each body r s'
      | Raised s' e => Raised s' e
      end
  end.

Definition rget_node_id (rel_path name : string) : string :=
  rel_path ++ "::" ++ name.

Definition is_def_capture (capture_name : string) : bool :=
  String.eqb capture_name "class.name"
  || String.eqb capture_name "function.name".

(** The body of the capture loop of [parse_file]. *)
Definition def_capture (rel_path code : string) (s : rstate) (c : rcapture)
  : rstate :=
  let '(start_byte, end_byte, capture_name) := c in
  if is_def_capture capture_name then
    let name := slice code start_byte end_byte in
    let node_id := rget_node_id rel_path name in
    let node_type :=
      if String.eqb capture_name "class.name" then "class" else "function" in
    let g1 := radd_node (rgraph s) node_id
                (RAttrs (Some node_type) None (Some name) (Some rel_path)) in
    let g2 := radd_edge g1 rel_path node_id "defines" in
    RState g2 (index_append (global_definitions s) name node_id)
  else s.

(** [parse_file]; as before the argument is the path relative to
    [repo_path].  Nothing here is caught. *)
Definition rparse_file (w : rworld) (s : rstate) (rel_path : string) : run :=
  match rw_read w rel_path with
  | Raise e => Raised s e
  | Ok code =>
      let s1 := RState (radd_node (rgraph s) rel_path
                          (RAttrs (Some "file") (Some rel_path) None None))
                       (global_definitions s) in
      match rw_defs w code with
      | Raise e => Raised s1 e
      | Ok captures => Returned (fold_left (def_capture rel_path code) captures s1)
      end
  end.

Definition is_call_capture (capture_name : string) : bool :=
  String.eqb capture_name "call.name"
  || String.eqb capture_name "call.method".

(** The texts the loop adds to [found_calls], in the order it adds them. *)
Definition call_names (code : string) (captures : list rcapture)
  : list string :=
  map (fun c => slice code (fst (fst c)) (snd (fst c)))
      (filter (fun c => is_call_capture (snd c)) captures).

(** [for target_id in possible_targets] *)
Definition link_calls (file_node_id : string) (g : RGraph)
           (possible_targets : list string) : RGraph :=
  fold_left
    (fun g target_id =>
       if negb (String.eqb target_id file_node_id)
       then radd_edge g file_node_id target_id "calls"
       else g)
    possible_targets g.

(** The body of [for call_name in found_calls]. *)
Definition link_call (defs : ODict.t string (list string))
           (file_node_id : string) (g : RGraph) (call_name : string)
  : RGraph :=
  match ODict.get String.eqb defs call_name with
  | Some possible_targets => link_calls file_node_id g possible_targets
  | None => g
  end.

(** The body of [for file_node_id in file_nodes]. *)
Definition resolve_file (w : rworld) (s : rstate) (file_node_id : string)
  : run :=
  if negb (rw_exists w file_node_id) then Returned s
  else
    match rw_read w file_node_id with
    | Raise e => Raised s e
    | Ok code =>
        match rw_calls w code with
        | Raise e => Raised s e
        | Ok captures =>
            let found_calls := rw_set_order w (call_names code captures) in
            Returned
              (RState (fold_left
                         (link_call (global_definitions s) file_node_id)
                         found_calls (rgraph s))
                      (global_definitions s))
        end
    end.

Definition rfile_nodes (g : RGraph) : list string :=
  map fst (filter (fun na => match r_type (snd na) with
                             | Some t => String.eqb t "file"
                             | None => false
                             end) (rnodes g)).

Definition resolve_dependencies (w : rworld) (s : rstate) : run :=
  for_each (resolve_file w) (rfile_nodes (rgraph s)) s.

(** The files [build] parses: those whose name ends in [.py], directory by
    directory. *)
Definition py_paths (w : rworld) : list string :=
  flat_map (fun d => map (OsPath.join (fst d))
                         (filter (fun file => endswith file ".py") (snd d)))
           (rw_walk w).

Definition rbuild (w : rworld) (s : rstate) : run :=
  match for_each (rparse_file w) (py_paths w) s with
  | Returned s1 => resolve_dependencies w s1
  | Raised s1 e => Raised s1 e
  end.

(** [[v for u, v, d in G.out_edges(f, data=True) if d['relation'] == r]],
    the comprehension both exporters use. *)
Definition rout_edges (g : RGraph) (f r : string) : list string :=
  map (fun e => snd (fst e))
      (filter (fun e => String.eqb (fst (fst e)) f && String.eqb (snd e) r)
              (redges g)).

(** The order of iteration of a [set] holds exactly what was added. *)
Definition iterates_sets (w : rworld) : Prop :=
  forall l x, In x (rw_set_order w l) <-> In x l.

(** [g'] has the edges of [g], some of them turned into, or added as,
    [calls] edges; the keys of its edge table are still distinct. *)
Definition calls_added (g g' : RGraph) : Prop :=
  (forall u v, redge_get g' u v = redge_get g u v
               \/ redge_get g' u v = Some "calls")
  /\ (NoDup (map fst (redges g)) -> NoDup (map fst (redges g'))).

End Repo.

(* ================================================================== *)
(** ** A small Python repository for [RepoGraphBuilder] *)

Module RepoScenarios.
Import PyStr Builder Repo.

(** [lib.py] defines [helper] and calls it itself; [main.py] calls it
    too; [notes.py] cannot be decoded. *)
Definition lib_code : string := "def helper(): pass" ++ Scenarios.nl ++ "helper()".

Definition rw_demo : rworld :=
  RWorld "repo"
         [ ("", ["lib.py"; "main.py"; "README.md"]) ]
         (fun p => if String.eqb p "lib.py" then Ok lib_code
                   else if String.eqb p "main.py" then Ok "helper()"
                   else Raise "UnicodeDecodeError")
         (fun _ => true)
         (fun code => if String.eqb code lib_code
                      then Ok [ (4, 10, "function.name"); (0, 18, "function.def") ]
                      else Ok [])
         (fun code => if String.eqb code lib_code
                      then Ok [ (19, 25, "call.name"); (19, 27, "call.site") ]
                      else Ok [ (0, 6, "call.name"); (0, 8, "call.site") ])
         (fun l => nodup string_dec l).

Definition rw_broken : rworld :=
  RWorld "repo"
         [ ("", ["lib.py"; "notes.py"; "main.py"]) ]
         (rw_read rw_demo) (rw_exists rw_demo) (rw_defs rw_demo)
         (rw_calls rw_demo) (rw_set_order rw_demo).

(** A file whose first line is a comment with one letter beyond ASCII;
    the identifier [run] stands at the characters 11 to 13. *)
Definition accent_code : string :=
  "# " ++ Scenarios.cafe ++ Scenarios.nl ++ "def run(): pass".

(** The builder after [lib.py] and [main.py] have been parsed. *)
Definition s_parsed : rstate :=
  match for_each (rparse_file rw_demo) (py_paths rw_demo) rinit with
  | Returned s => s
  | Raised s _ => s
  end.

End RepoScenarios.

(* ================================================================== *)
(** ** Relations and invariants used in the proofs *)

Module Invariants.
Import PyStr Nx Builder Spec.

(** [g'] differs from [g] at most by [references] edges between pairs
    that satisfy [P]. *)
Definition adds_refs (P : string -> string -> Prop) (g g' : DiGraph) : Prop :=
  forall u v,
    edge_get g' u v = edge_get g u v
    \/ (edge_get g' u v = Some "references" /\ P u v).

(** What makes the resolver write the edge from [u] to [v]: the file behind
    [u] can be read, some name of more than three characters that the index
    [d] maps to [v] occurs in its text, and [v] passes the guard. *)
Definition linked (w : world) (d : index) (u v : string) : Prop :=
  startswith v u = false
  /\ exists content name ts,
       read_text w u = Ok content /\ In (name, ts) d
       /\ 3 < String.length name /\ contains content name = true
       /\ In v ts.

(** Every node an index lists is a node of the graph. *)
Definition targets_known (g : DiGraph) (d : index) : Prop :=
  forall k l t, In (k, l) d -> In t l -> has_node g t = true.

Definition is_file (g : DiGraph) (f : string) : Prop :=
  exists a, node_get g f = Some a /\ a_type a = Some "file".

Definition is_definition (g : DiGraph) (n : string) : Prop :=
  exists a, node_get g n = Some a /\ a_type a = Some "definition".

(** The shape of a graph built from colon-free paths. *)
Record well_formed (g : DiGraph) : Prop := WellFormed {
  wf_keys : NoDup (map fst (edges g));
  wf_file : forall n, is_file g n -> colon_free n = true;
  wf_def : forall n, is_definition g n ->
           exists f name, n = (f ++ "::" ++ name)%string
                          /\ colon_free f = true /\ is_file g f
                          /\ edge_get g f n = Some "contains";
  wf_contains : forall u v, edge_get g u v = Some "contains" ->
                colon_free u = true
                /\ exists name, v = (u ++ "::" ++ name)%string }.
Arguments wf_keys {g} _.
Arguments wf_file {g} _ n _.
Arguments wf_def {g} _ n _.
Arguments wf_contains {g} _ u v _.

(** The definition [name] of file [rel_path] is in the graph, with the
    attributes and the edge [parse_file] gives it. *)
Definition settled (rel_path name : string) (g : DiGraph) : Prop :=
  (exists a, node_get g (get_node_id rel_path name) = Some a
             /\ a_type a = Some "definition" /\ a_name a = Some name)
  /\ has_node g rel_path = true
  /\ edge_get g rel_path (get_node_id rel_path name) = Some "contains".

End Invariants.

(* ================================================================== *)
(** ** The shape of a built graph *)

Module Shape.
Import PyStr Nx Builder Spec Invariants.

(** The [lang] attribute [parse_file] writes for a file of this path. *)
Definition lang_of (rel_path : string) : string :=
  let ext := OsPath.splitext_ext (OsPath.basename rel_path) in
  if String.eqb ext "" then "docker" else ext.

(** A node as [parse_file] leaves it: a file node of a registered format
    with its language tag, or a definition node with a name. *)
Definition node_ok (n : string) (a : attrs) : Prop :=
  (a_type a = Some "file" /\ a_lang a = Some (lang_of n)
   /\ lookup_config (OsPath.basename n) <> None)
  \/ (a_type a = Some "definition" /\ a_name a <> None).

Record shaped (g : DiGraph) : Prop := Shaped {
  sh_node_keys : NoDup (map fst (nodes g));
  sh_edge_keys : NoDup (map fst (edges g));
  sh_nodes : forall n a, node_get g n = Some a -> node_ok n a;
  sh_edges : forall u v r, edge_get g u v = Some r ->
             (r = "contains" \/ r = "references")
             /\ has_node g u = true
             /\ exists a, node_get g v = Some a /\ a_name a <> None }.
Arguments sh_node_keys {g} _.
Arguments sh_edge_keys {g} _.
Arguments sh_nodes {g} _ n a _.
Arguments sh_edges {g} _ u v r _.

(** Every edge is a [contains] edge into a node named after its source. *)
Definition only_contains (g : DiGraph) : Prop :=
  forall u v r, edge_get g u v = Some r ->
                r = "contains" /\ exists name, v = (u ++ "::" ++ name)%string.

(** What [parse_file] prints for one path. *)
Definition warning_of (w : world) (rel_path : string) : list event :=
  match lookup_config (OsPath.basename rel_path) with
  | Some e =>
      match load_captures w rel_path e with
      | Raise x => [ParseWarning rel_path x]
      | Ok _ => []
      end
  | None => []
  end.

End Shape.

(* ================================================================== *)
(** * Proofs *)

Unset Implicit Arguments.

(** ** Strings *)

Module PyStrFacts.
Import PyStr.

Lemma startswith_refl_app (p r : string) :
  startswith (p ++ r) p = true.
Proof.
  induction p as [|c p IH]; simpl; [reflexivity|].
  now rewrite Ascii.eqb_refl, IH.
Qed.

Lemma startswith_inv (s p : string) :
  startswith s p = true -> exists r, s = (p ++ r)%string.
Proof.
  revert s; induction p as [|c p IH]; intros s H; simpl in *.
  - now exists s.
  - destruct s as [|d s]; [discriminate|].
    apply andb_true_iff in H as [Hc Hs].
    apply Ascii.eqb_eq in Hc; subst d.
    destruct (IH _ Hs) as [r ->]. now exists r.
Qed.

Lemma startswith_iff (s p : string) :
  startswith s p = true <-> exists r, s = (p ++ r)%string.
Proof.
  split; [apply startswith_inv|]. intros [r ->]. apply startswith_refl_app.
Qed.

Lemma has_char_app (c : ascii) (s t : string) :
  has_char c (s ++ t) = has_char c s || has_char c t.
Proof.
  induction s as [|d s IH]; simpl; [reflexivity|].
  now rewrite IH, orb_assoc.
Qed.

Lemma length_app (s t : string) :
  String.length (s ++ t) = String.length s + String.length t.
Proof. induction s as [|c s IH]; simpl; congruence. Qed.

Lemma app_assoc_str (a b c : string) :
  ((a ++ b) ++ c = a ++ (b ++ c))%string.
Proof. induction a as [|x a IH]; simpl; congruence. Qed.

(** A string without [c], followed by [c], fixes where the first [c]
    stands: two such decompositions of one string agree. *)
Lemma first_char_unique (c : ascii) (p q r s : string) :
  has_char c p = false -> has_char c q = false ->
  (p ++ String c r = q ++ String c s)%string -> p = q.
Proof.
  revert q; induction p as [|x p IH]; intros [|y q] Hp Hq E; simpl in *.
  - reflexivity.
  - injection E as E1 _. subst y.
    now rewrite Ascii.eqb_refl in Hq.
  - injection E as E1 _. subst x.
    now rewrite Ascii.eqb_refl in Hp.
  - injection E as E1 E2. subst y.
    apply orb_false_iff in Hp as [_ Hp].
    apply orb_false_iff in Hq as [_ Hq].
    f_equal. eauto.
Qed.

Lemma remove_char_absent (c : ascii) (s : string) :
  has_char c s = false -> remove_char c s = s.
Proof.
  induction s as [|d s IH]; simpl; [reflexivity|].
  intros H. apply orb_false_iff in H as [Hd Hs].
  rewrite Hd. now rewrite IH.
Qed.

Lemma has_char_remove_same (c : ascii) (s : string) :
  has_char c (remove_char c s) = false.
Proof.
  induction s as [|d s IH]; simpl; [reflexivity|].
  destruct (Ascii.eqb d c) eqn:E; simpl; [assumption|].
  now rewrite E.
Qed.

Lemma has_char_remove_other (c e : ascii) (s : string) :
  has_char c s = false -> has_char c (remove_char e s) = false.
Proof.
  induction s as [|d s IH]; simpl; [reflexivity|].
  intros H. apply orb_false_iff in H as [Hd Hs].
  destruct (Ascii.eqb d e); simpl; [auto|].
  rewrite Hd. auto.
Qed.

Lemma has_char_lstrip (c : ascii) (p : ascii -> bool) (s : string) :
  has_char c s = false -> has_char c (lstrip_chars p s) = false.
Proof.
  induction s as [|d s IH]; simpl; [reflexivity|].
  intros H. destruct (p d); [|exact H].
  apply orb_false_iff in H as [_ Hs]. auto.
Qed.

Lemma has_char_rstrip (c : ascii) (p : ascii -> bool) (s : string) :
  has_char c s = false -> has_char c (rstrip_chars p s) = false.
Proof.
  induction s as [|d s IH]; simpl; [reflexivity|].
  intros H. apply orb_false_iff in H as [Hd Hs].
  specialize (IH Hs).
  destruct (rstrip_chars p s) as [|x r].
  - destruct (p d); simpl; [reflexivity|]. now rewrite Hd.
  - simpl in *. now rewrite Hd.
Qed.

Lemma has_char_strip (c : ascii) (p : ascii -> bool) (s : string) :
  has_char c s = false -> has_char c (strip_chars p s) = false.
Proof.
  intros H. unfold strip_chars. now apply has_char_rstrip, has_char_lstrip.
Qed.

Lemma forallb_str_false (p : ascii -> bool) (c : ascii) (s : string) :
  has_char c s = true -> p c = false -> forallb_str p s = false.
Proof.
  induction s as [|d s IH]; simpl; [discriminate|].
  intros H Hp. apply orb_true_iff in H as [H|H].
  - apply Ascii.eqb_eq in H. subst d. now rewrite Hp.
  - rewrite (IH H Hp). apply andb_false_r.
Qed.

Lemma forallb_str_ext (p q : ascii -> bool) (s : string) :
  (forall c, has_char c s = true -> p c = q c) ->
  forallb_str p s = forallb_str q s.
Proof.
  induction s as [|d s IH]; simpl; [reflexivity|].
  intros H. rewrite (H d), IH; [reflexivity| |].
  - intros c Hc. apply H. rewrite Hc. apply orb_true_r.
  - now rewrite Ascii.eqb_refl.
Qed.

End PyStrFacts.

(** ** Dictionaries *)

Module ODictFacts.
Section Facts.
Context {K V : Type}.
Variable eqb : K -> K -> bool.
Hypothesis eqb_ok : forall a b, eqb a b = true <-> a = b.

Let refl (a : K) : eqb a a = true.
Proof. now apply eqb_ok. Qed.

Lemma get_set_same (d : ODict.t K V) (k : K) (v : V) :
  ODict.get eqb (ODict.set eqb d k v) k = Some v.
Proof.
  induction d as [|[k' v'] d IH]; simpl.
  - now rewrite refl.
  - destruct (eqb k k') eqn:E; simpl.
    + now rewrite refl.
    + now rewrite E.
Qed.

Lemma get_set_other (d : ODict.t K V) (k k' : K) (v : V) :
  k' <> k ->
  ODict.get eqb (ODict.set eqb d k v) k' = ODict.get eqb d k'.
Proof.
  intros N. induction d as [|[k0 v0] d IH]; simpl.
  - destruct (eqb k' k) eqn:E; [|reflexivity].
    apply eqb_ok in E. contradiction.
  - destruct (eqb k k0) eqn:E; simpl.
    + apply eqb_ok in E. subst k0.
      destruct (eqb k' k) eqn:E'; [|reflexivity].
      apply eqb_ok in E'. contradiction.
    + destruct (eqb k' k0); [reflexivity|exact IH].
Qed.

Lemma set_get_id (d : ODict.t K V) (k : K) (v : V) :
  ODict.get eqb d k = Some v -> ODict.set eqb d k v = d.
Proof.
  induction d as [|[k0 v0] d IH]; simpl; [discriminate|].
  destruct (eqb k k0) eqn:E.
  - intros [= ->]. apply eqb_ok in E. now subst.
  - intros H. now rewrite IH.
Qed.

Lemma get_In (d : ODict.t K V) (k : K) (v : V) :
  ODict.get eqb d k = Some v -> In (k, v) d.
Proof.
  induction d as [|[k0 v0] d IH]; simpl; [discriminate|].
  destruct (eqb k k0) eqn:E.
  - intros [= ->]. apply eqb_ok in E. subst. now left.
  - intros H. right. auto.
Qed.

Lemma In_get (d : ODict.t K V) (k : K) (v : V) :
  In (k, v) d -> exists v', ODict.get eqb d k = Some v'.
Proof.
  induction d as [|[k0 v0] d IH]; simpl; [contradiction|].
  intros [E|H].
  - injection E as -> ->. rewrite refl. eauto.
  - destruct (eqb k k0); eauto.
Qed.

Lemma keys_set (d : ODict.t K V) (k : K) (v : V) :
  map fst (ODict.set eqb d k v) =
  if ODict.mem eqb d k then map fst d else map fst d ++ [k].
Proof.
  unfold ODict.mem.
  induction d as [|[k0 v0] d IH]; simpl; [reflexivity|].
  destruct (eqb k k0) eqn:E; simpl.
  - apply eqb_ok in E. now subst.
  - rewrite IH. now destruct (ODict.get eqb d k).
Qed.

Lemma mem_In_keys (d : ODict.t K V) (k : K) :
  ODict.mem eqb d k = false -> ~ In k (map fst d).
Proof.
  unfold ODict.mem.
  induction d as [|[k0 v0] d IH]; simpl; [tauto|].
  destruct (eqb k k0) eqn:E; [discriminate|].
  intros H [H0|H0].
  - subst k0. now rewrite refl in E.
  - now apply IH.
Qed.

Lemma NoDup_keys_set (d : ODict.t K V) (k : K) (v : V) :
  NoDup (map fst d) -> NoDup (map fst (ODict.set eqb d k v)).
Proof.
  intros H. rewrite keys_set.
  destruct (ODict.mem eqb d k) eqn:E; [exact H|].
  apply NoDup_app; [exact H | repeat constructor; intros [] | ].
  intros x Hx [<-|[]]. now apply mem_In_keys in E.
Qed.

(** With unique keys, an entry of the list is what [get] finds. *)
Lemma NoDup_In_get (d : ODict.t K V) (k : K) (v : V) :
  NoDup (map fst d) -> In (k, v) d -> ODict.get eqb d k = Some v.
Proof.
  induction d as [|[k0 v0] d IH]; simpl; [contradiction|].
  intros N [E|H]; inversion N as [|? ? Hn N']; subst.
  - injection E as -> ->. now rewrite refl.
  - destruct (eqb k k0) eqn:E.
    + apply eqb_ok in E. subst k0. exfalso. apply Hn.
      change k with (fst (k, v)). now apply in_map.
    + auto.
Qed.
End Facts.
End ODictFacts.

(** ** Graphs *)

Module NxFacts.
Import Nx.

Lemma string_eqb_ok (a b : string) : String.eqb a b = true <-> a = b.
Proof. apply String.eqb_eq. Qed.

Lemma edge_eqb_ok (a b : edge) : edge_eqb a b = true <-> a = b.
Proof.
  destruct a as [a1 a2], b as [b1 b2]. unfold edge_eqb. simpl.
  rewrite andb_true_iff, !String.eqb_eq. split.
  - now intros [-> ->].
  - now intros [= -> ->].
Qed.

Lemma fold_left_inv (A B : Type) (P : A -> Prop) (f : A -> B -> A)
      (l : list B) (a : A) :
  (forall x b, In b l -> P x -> P (f x b)) -> P a -> P (fold_left f l a).
Proof.
  revert a. induction l as [|b l IH]; intros a H Ha; simpl; [exact Ha|].
  apply IH.
  - intros x b' Hb. apply H. now right.
  - apply H; [now left|exact Ha].
Qed.

Lemma edges_add_node (g : DiGraph) (n : string) (a : attrs) :
  edges (add_node g n a) = edges g.
Proof. reflexivity. Qed.

Lemma node_get_add_node_same (g : DiGraph) (n : string) (a : attrs) :
  node_get (add_node g n a) n =
  Some (update_attrs
          (match node_get g n with Some o => o | None => no_attrs end) a).
Proof.
  unfold node_get, add_node. simpl.
  apply ODictFacts.get_set_same, string_eqb_ok.
Qed.

Lemma node_get_add_node_other (g : DiGraph) (n m : string) (a : attrs) :
  m <> n -> node_get (add_node g n a) m = node_get g m.
Proof.
  intros H. unfold node_get, add_node. simpl.
  now apply ODictFacts.get_set_other; [apply string_eqb_ok|].
Qed.

Lemma has_node_add_node (g : DiGraph) (n m : string) (a : attrs) :
  has_node g m = true -> has_node (add_node g n a) m = true.
Proof.
  unfold has_node, ODict.mem. fold (node_get g m).
  fold (node_get (add_node g n a) m).
  destruct (String.eqb m n) eqn:E.
  - apply String.eqb_eq in E. subst m.
    now rewrite node_get_add_node_same.
  - apply String.eqb_neq in E.
    now rewrite node_get_add_node_other.
Qed.

Lemma has_node_add_node_same (g : DiGraph) (n : string) (a : attrs) :
  has_node (add_node g n a) n = true.
Proof.
  unfold has_node, ODict.mem. fold (node_get (add_node g n a) n).
  now rewrite node_get_add_node_same.
Qed.

Lemma has_node_get (g : DiGraph) (n : string) (a : attrs) :
  node_get g n = Some a -> has_node g n = true.
Proof.
  unfold has_node, ODict.mem, node_get. now intros ->.
Qed.

Lemma has_node_In (g : DiGraph) (n : string) (a : attrs) :
  In (n, a) (nodes g) -> has_node g n = true.
Proof.
  intros H. unfold has_node, ODict.mem.
  destruct (ODictFacts.In_get String.eqb string_eqb_ok _ _ _ H) as [v ->].
  reflexivity.
Qed.

(** Between nodes that exist, [add_edge] leaves the node table alone. *)
Lemma nodes_add_edge (g : DiGraph) (u v r : string) :
  has_node g u = true -> has_node g v = true ->
  nodes (add_edge g u v r) = nodes g.
Proof.
  intros Hu Hv. unfold add_edge. rewrite Hu, Hv. reflexivity.
Qed.

Lemma edge_get_add_edge_same (g : DiGraph) (u v r : string) :
  edge_get (add_edge g u v r) u v = Some r.
Proof.
  unfold edge_get, add_edge. simpl.
  apply ODictFacts.get_set_same, edge_eqb_ok.
Qed.

Lemma edges_add_edge (g : DiGraph) (u v r : string) :
  edges (add_edge g u v r) = ODict.set edge_eqb (edges g) (u, v) r.
Proof.
  unfold add_edge. simpl.
  destruct (has_node g u); simpl;
    match goal with |- context [if ?b then _ else _] => destruct b end;
    reflexivity.
Qed.

Lemma edge_get_add_edge_other (g : DiGraph) (u v r u' v' : string) :
  (u', v') <> (u, v) ->
  edge_get (add_edge g u v r) u' v' = edge_get g u' v'.
Proof.
  intros H. unfold edge_get. rewrite edges_add_edge.
  now apply ODictFacts.get_set_other; [apply edge_eqb_ok|].
Qed.

Lemma node_get_add_edge (g : DiGraph) (u v r n : string) (a : attrs) :
  node_get g n = Some a -> node_get (add_edge g u v r) n = Some a.
Proof.
  intros H. unfold add_edge.
  assert (K : forall g' m, node_get g' n = Some a ->
              node_get (if has_node g' m then g' else add_node g' m no_attrs) n
              = Some a).
  { intros g' m H'. destruct (has_node g' m) eqn:E; [exact H'|].
    rewrite node_get_add_node_other; [exact H'|].
    intros ->. apply has_node_get in H'. congruence. }
  unfold node_get at 1. simpl. fold (node_get
    (if has_node (if has_node g u then g else add_node g u no_attrs) v
     then if has_node g u then g else add_node g u no_attrs
     else add_node (if has_node g u then g else add_node g u no_attrs) v
                   no_attrs) n).
  now apply K, K.
Qed.

Lemma NoDup_edges_add_edge (g : DiGraph) (u v r : string) :
  NoDup (map fst (edges g)) -> NoDup (map fst (edges (add_edge g u v r))).
Proof.
  intros H. rewrite edges_add_edge.
  now apply ODictFacts.NoDup_keys_set; [apply edge_eqb_ok|].
Qed.

End NxFacts.

(** ** The resolver adds guarded [references] edges and nothing else *)

Module ResolverFacts.
Import PyStr Nx Builder Invariants NxFacts.

Lemma adds_refs_refl (P : string -> string -> Prop) (g : DiGraph) :
  adds_refs P g g.
Proof. intros u v. now left. Qed.

Lemma adds_refs_trans (P : string -> string -> Prop) (g1 g2 g3 : DiGraph) :
  adds_refs P g1 g2 -> adds_refs P g2 g3 -> adds_refs P g1 g3.
Proof.
  intros H12 H23 u v.
  destruct (H23 u v) as [E|R]; [|now right].
  rewrite E. apply H12.
Qed.

Lemma adds_refs_weaken (P Q : string -> string -> Prop) (g g' : DiGraph) :
  (forall u v, P u v -> Q u v) -> adds_refs P g g' -> adds_refs Q g g'.
Proof.
  intros PQ H u v. destruct (H u v) as [E|(E & Puv)]; [now left|].
  right. auto.
Qed.

Lemma add_edge_adds_refs (P : string -> string -> Prop) (g : DiGraph)
      (f t : string) :
  P f t -> adds_refs P g (add_edge g f t "references").
Proof.
  intros Pft u v.
  destruct (Nx.edge_eqb (u, v) (f, t)) eqn:E.
  - apply edge_eqb_ok in E. injection E as -> ->.
    right. now rewrite edge_get_add_edge_same.
  - left. apply edge_get_add_edge_other.
    intros Heq. apply edge_eqb_ok in Heq. congruence.
Qed.

Lemma link_targets_adds (P : string -> string -> Prop) (f : string)
      (ts : list string) (g : DiGraph) :
  (forall t, In t ts -> startswith t f = false -> P f t) ->
  adds_refs P g (link_targets f g ts).
Proof.
  intros HP. unfold link_targets.
  apply fold_left_inv with (P := adds_refs P g); [|apply adds_refs_refl].
  intros x t Hin Hx.
  destruct (startswith t f) eqn:G; cbn [negb]; [exact Hx|].
  eapply adds_refs_trans; [exact Hx|]. apply add_edge_adds_refs. auto.
Qed.

Lemma scan_name_adds (P : string -> string -> Prop) (f content : string)
      (g : DiGraph) (kv : string * list string) :
  (3 < String.length (fst kv) -> contains content (fst kv) = true ->
   forall t, In t (snd kv) -> startswith t f = false -> P f t) ->
  adds_refs P g (scan_name f content g kv).
Proof.
  intros HP. destruct kv as [k ts]. unfold scan_name. simpl in HP.
  destruct (3 <? String.length k)%nat eqn:L; simpl;
    [|apply adds_refs_refl].
  destruct (contains content k) eqn:C; [|apply adds_refs_refl].
  apply link_targets_adds. apply HP; [|reflexivity].
  now apply Nat.ltb_lt.
Qed.

Lemma scan_file_adds (w : world) (d : index) (g : DiGraph) (f : string) :
  adds_refs (fun u v => u = f /\ linked w d u v) g (scan_file w d g f).
Proof.
  unfold scan_file. destruct (read_text w f) as [content|x] eqn:R;
    [|apply adds_refs_refl].
  apply fold_left_inv
    with (P := adds_refs (fun u v => u = f /\ linked w d u v) g);
    [|apply adds_refs_refl].
  intros x [k ts] Hin Hx. eapply adds_refs_trans; [exact Hx|].
  apply scan_name_adds. simpl. intros L C t Ht G.
  split; [reflexivity|]. split; [exact G|].
  exists content, k, ts. auto.
Qed.

Lemma resolve_adds (w : world) (g : DiGraph) :
  adds_refs (fun u v => In u (nodes_of_type g "file")
                        /\ linked w (build_index g) u v)
            g (resolve w g).
Proof.
  unfold resolve.
  apply fold_left_inv
    with (P := adds_refs (fun u v => In u (nodes_of_type g "file")
                                     /\ linked w (build_index g) u v) g);
    [|apply adds_refs_refl].
  intros x f Hin Hx. eapply adds_refs_trans; [exact Hx|].
  eapply adds_refs_weaken; [|apply scan_file_adds].
  intros u v [-> L]. now split.
Qed.

(** *** The node table is not touched *)

Lemma link_targets_nodes (f : string) (ts : list string) (g : DiGraph) :
  has_node g f = true ->
  (forall t, In t ts -> has_node g t = true) ->
  nodes (link_targets f g ts) = nodes g.
Proof.
  intros Hf Ht. unfold link_targets.
  apply fold_left_inv with (P := fun x => nodes x = nodes g); [|reflexivity].
  intros x t Hin Hx.
  destruct (startswith t f); cbn [negb]; [exact Hx|].
  rewrite nodes_add_edge; [exact Hx| |]; unfold has_node; rewrite Hx.
  - exact Hf.
  - now apply Ht.
Qed.

Lemma scan_file_nodes (w : world) (d : index) (g0 g : DiGraph) (f : string) :
  nodes g = nodes g0 -> has_node g0 f = true -> targets_known g0 d ->
  nodes (scan_file w d g f) = nodes g0.
Proof.
  intros Hg Hf Hd. unfold scan_file.
  destruct (read_text w f) as [content|x]; [|exact Hg].
  apply fold_left_inv with (P := fun x => nodes x = nodes g0); [|exact Hg].
  intros x [k ts] Hin Hx. unfold scan_name.
  destruct ((3 <? String.length k)%nat && contains content k); [|exact Hx].
  rewrite link_targets_nodes; [exact Hx| |]; unfold has_node; rewrite Hx.
  - exact Hf.
  - intros t Ht. exact (Hd _ _ _ Hin Ht).
Qed.

Lemma In_set_inv (d : index) (k : string) (v : list string)
      (k' : string) (l' : list string) :
  In (k', l') (ODict.set String.eqb d k v) ->
  (k', l') = (k, v) \/ In (k', l') d.
Proof.
  induction d as [|[k0 v0] d IH]; simpl.
  - intros [H|[]]. now left.
  - destruct (String.eqb k k0); simpl.
    + intros [H|H]; [now left|now right; right].
    + intros [H|H]; [now right; left|].
      destruct (IH H); [now left|now right; right].
Qed.

Lemma index_append_known (g : DiGraph) (d : index) (k node : string) :
  has_node g node = true -> targets_known g d ->
  targets_known g (index_append d k node).
Proof.
  intros Hn Hd k' l' t Hin Ht. unfold index_append in Hin.
  apply In_set_inv in Hin as [E|Hin]; [|eauto].
  injection E as -> ->. apply in_app_or in Ht as [Ht|[<-|[]]]; [|exact Hn].
  destruct (ODict.get String.eqb d k) as [l|] eqn:G; [|contradiction].
  apply (ODictFacts.get_In String.eqb string_eqb_ok) in G. eauto.
Qed.

Lemma build_index_known (g : DiGraph) : targets_known g (build_index g).
Proof.
  unfold build_index.
  apply fold_left_inv with (P := targets_known g).
  - intros d [node attr] Hin Hd. unfold index_node.
    pose proof (has_node_In _ _ _ Hin) as Hn.
    destruct (has_type "definition" attr); [|exact Hd].
    destruct (a_name attr) as [name|]; [|exact Hd].
    destruct (String.eqb name ""); [exact Hd|].
    destruct (has_char "." name); repeat apply index_append_known; auto.
  - intros k l t [].
Qed.

Lemma nodes_of_type_In (g : DiGraph) (t f : string) :
  In f (nodes_of_type g t) ->
  exists a, In (f, a) (nodes g) /\ has_type t a = true.
Proof.
  unfold nodes_of_type. intros H. apply in_map_iff in H as [[f' a] [E H]].
  simpl in E. subst f'. apply filter_In in H as [H1 H2]. eauto.
Qed.

Lemma resolve_nodes (w : world) (g : DiGraph) :
  nodes (resolve w g) = nodes g.
Proof.
  unfold resolve.
  apply fold_left_inv with (P := fun x => nodes x = nodes g); [|reflexivity].
  intros x f Hin Hx. apply scan_file_nodes; [exact Hx| |].
  - apply nodes_of_type_In in Hin as [a [Hin _]]. eapply has_node_In; eauto.
  - apply build_index_known.
Qed.

End ResolverFacts.

(** ** The name index only grows *)

Module IndexFacts.
Import PyStr Nx Builder Invariants NxFacts.

Lemma index_append_same (d : index) (k node : string) :
  ODict.get String.eqb (index_append d k node) k =
  Some (match ODict.get String.eqb d k with Some l => l | None => [] end
        ++ [node]).
Proof.
  unfold index_append. apply ODictFacts.get_set_same, string_eqb_ok.
Qed.

Lemma index_append_mono (d : index) (k node k0 : string) (l : list string) :
  ODict.get String.eqb d k0 = Some l ->
  exists l', ODict.get String.eqb (index_append d k node) k0 = Some (l ++ l').
Proof.
  intros H. destruct (String.eqb k0 k) eqn:E.
  - apply String.eqb_eq in E. subst k0.
    rewrite index_append_same, H. now exists [node].
  - apply String.eqb_neq in E. exists []. rewrite app_nil_r.
    unfold index_append.
    rewrite ODictFacts.get_set_other; auto using string_eqb_ok.
Qed.

Lemma index_node_mono (d : index) (na : string * attrs) (k : string)
      (l : list string) :
  ODict.get String.eqb d k = Some l ->
  exists l', ODict.get String.eqb (index_node d na) k = Some (l ++ l').
Proof.
  intros H. destruct na as [node attr]. unfold index_node.
  assert (Z : exists l', ODict.get String.eqb d k = Some (l ++ l'))
    by (exists []; now rewrite app_nil_r).
  destruct (has_type "definition" attr); [|exact Z].
  destruct (a_name attr) as [name|]; [|exact Z].
  destruct (String.eqb name ""); [exact Z|].
  destruct (index_append_mono d name node _ _ H) as [l1 H1].
  destruct (has_char "." name); [|eauto].
  destruct (index_append_mono _ (split_last "." name) node _ _ H1) as [l2 H2].
  exists (l1 ++ l2). now rewrite app_assoc.
Qed.

Lemma index_fold_mono (ns : list (string * attrs)) (d : index) (k : string)
      (l : list string) :
  ODict.get String.eqb d k = Some l ->
  exists l', ODict.get String.eqb (fold_left index_node ns d) k
             = Some (l ++ l').
Proof.
  revert d l. induction ns as [|na ns IH]; intros d l H; simpl.
  - exists []. now rewrite app_nil_r.
  - destruct (index_node_mono d na _ _ H) as [l1 H1].
    destruct (IH _ _ H1) as [l2 H2].
    exists (l1 ++ l2). now rewrite app_assoc.
Qed.

Lemma has_char_nonempty (c : ascii) (s : string) :
  has_char c s = true -> String.eqb s "" = false.
Proof. destruct s; [discriminate|reflexivity]. Qed.

(** What one turn of the indexing loop leaves behind for a dotted name. *)
Lemma index_node_dotted (d : index) (node name : string) (attr : attrs) :
  has_type "definition" attr = true -> a_name attr = Some name ->
  has_char "." name = true ->
  (exists l, ODict.get String.eqb (index_node d (node, attr)) name = Some l
             /\ In node l)
  /\ (exists l, ODict.get String.eqb (index_node d (node, attr))
                          (split_last "." name) = Some l
                /\ In node l).
Proof.
  intros Ht Hn Hd. unfold index_node.
  rewrite Ht, Hn, (has_char_nonempty _ _ Hd), Hd. split.
  - pose proof (index_append_same d name node) as H1.
    destruct (index_append_mono _ (split_last "." name) node _ _ H1)
      as [l' H2].
    eexists. split; [exact H2|].
    apply in_or_app. left. apply in_or_app. right. now left.
  - eexists. split; [apply index_append_same|].
    apply in_or_app. right. now left.
Qed.

Lemma build_index_dotted (g : DiGraph) (node name : string) (attr : attrs) :
  In (node, attr) (nodes g) ->
  has_type "definition" attr = true -> a_name attr = Some name ->
  has_char "." name = true ->
  (exists l, ODict.get String.eqb (build_index g) name = Some l
             /\ In node l)
  /\ (exists l, ODict.get String.eqb (build_index g)
                          (split_last "." name) = Some l
                /\ In node l).
Proof.
  intros Hin Ht Hn Hd. unfold build_index.
  apply in_split in Hin as (l1 & l2 & ->).
  rewrite fold_left_app. simpl.
  destruct (index_node_dotted (fold_left index_node l1 []) node name attr
              Ht Hn Hd) as [(a & Ha & Ia) (b & Hb & Ib)].
  destruct (index_fold_mono l2 _ _ _ Ha) as [a' Ha'].
  destruct (index_fold_mono l2 _ _ _ Hb) as [b' Hb'].
  split; eexists; (split; [eassumption|]); apply in_or_app; now left.
Qed.

End IndexFacts.

(** ** A hit of the scan is an edge of the result *)

Module ScanFacts.
Import PyStr Nx Builder Invariants NxFacts ResolverFacts.

Lemma adds_refs_keeps (P : string -> string -> Prop) (g g' : DiGraph)
      (u v : string) :
  adds_refs P g g' -> edge_get g u v = Some "references" ->
  edge_get g' u v = Some "references".
Proof.
  intros H E. destruct (H u v) as [E'|[E' _]]; congruence.
Qed.

Lemma link_targets_hit (f t : string) (ts : list string) (g : DiGraph) :
  In t ts -> startswith t f = false ->
  edge_get (link_targets f g ts) f t = Some "references".
Proof.
  intros Hin G. apply in_split in Hin as (l1 & l2 & ->).
  unfold link_targets. rewrite fold_left_app. simpl. rewrite G. simpl.
  eapply adds_refs_keeps.
  - apply (link_targets_adds (fun _ _ => True) f l2). intros; exact I.
  - apply edge_get_add_edge_same.
Qed.

Lemma scan_file_hit (w : world) (d : index) (g : DiGraph)
      (f content name t : string) (ts : list string) :
  read_text w f = Ok content -> In (name, ts) d ->
  3 < String.length name -> contains content name = true ->
  In t ts -> startswith t f = false ->
  edge_get (scan_file w d g f) f t = Some "references".
Proof.
  intros R Hd Hl Hc Ht G. unfold scan_file. rewrite R.
  apply in_split in Hd as (l1 & l2 & ->).
  rewrite fold_left_app. simpl.
  apply Nat.ltb_lt in Hl. rewrite Hl, Hc. simpl.
  eapply adds_refs_keeps.
  - apply fold_left_inv with (P := adds_refs (fun _ _ => True)
               (link_targets f (fold_left (scan_name f content) l1 g) ts));
      [|apply adds_refs_refl].
    intros x kv _ Hx. eapply adds_refs_trans; [exact Hx|].
    apply scan_name_adds. intros; exact I.
  - now apply link_targets_hit.
Qed.

Lemma resolve_hit (w : world) (g : DiGraph)
      (f content name t : string) (ts : list string) :
  In f (nodes_of_type g "file") ->
  read_text w f = Ok content -> In (name, ts) (build_index g) ->
  3 < String.length name -> contains content name = true ->
  In t ts -> startswith t f = false ->
  edge_get (resolve w g) f t = Some "references".
Proof.
  intros Hf R Hd Hl Hc Ht G. unfold resolve.
  apply in_split in Hf as (l1 & l2 & E). rewrite E.
  rewrite fold_left_app. simpl.
  eapply adds_refs_keeps.
  - apply fold_left_inv with (P := adds_refs (fun _ _ => True)
      (scan_file w (build_index g)
         (fold_left (scan_file w (build_index g)) l1 g) f));
      [|apply adds_refs_refl].
    intros x f' _ Hx. eapply adds_refs_trans; [exact Hx|].
    eapply adds_refs_weaken; [|apply scan_file_adds]. intros; exact I.
  - eapply scan_file_hit; eauto.
Qed.

End ScanFacts.

(** ** The qualified path of a YAML key *)

Module YamlFacts.
Import PyStr Builder Spec.

(** Induction along [parent]. *)
Lemma ts_node_parent_ind (P : ts_node -> Prop) :
  (forall n, (forall p, parent n = Some p -> P p) -> P n) ->
  forall n, P n.
Proof.
  intros H. fix IH 1. intros [i t x k [p|]]; apply H; simpl; intros q Hq.
  - injection Hq as <-. apply IH.
  - discriminate.
Qed.

Lemma climb_step_key (node curr : ts_node) (path : list string) :
  climb_step node curr path =
  match enclosing_key node curr with
  | Some k => k :: path
  | None => path
  end.
Proof.
  unfold climb_step, enclosing_key.
  destruct (String.eqb (node_type curr) "block_mapping_pair");
    [|reflexivity].
  destruct (key_child curr) as [[kid key_text]|]; [|reflexivity].
  now destruct (Nat.eqb kid (node_id node)).
Qed.

Lemma climb_eq (node curr : ts_node) (path : list string) :
  climb node curr path = climb_step node curr path
  \/ exists p, parent curr = Some p
               /\ climb node curr path
                  = climb node p (climb_step node curr path).
Proof.
  destruct curr as [i t x k [p|]]; simpl; [right; eauto|now left].
Qed.

Lemma ancestors_eq (n : ts_node) :
  ancestors n = match parent n with
                | Some p => p :: ancestors p
                | None => []
                end.
Proof. now destruct n as [i t x k [p|]]. Qed.

(** The loop prepends, nearest ancestor first, so the outermost key ends
    up in front. *)
Lemma climb_keys (node : ts_node) :
  forall curr path,
    climb node curr path
    = rev (keys_of node (curr :: ancestors curr)) ++ path.
Proof.
  intros curr. induction curr as [curr IH] using ts_node_parent_ind.
  intros path. simpl keys_of.
  rewrite (ancestors_eq curr).
  destruct curr as [i t x k [p|]]; simpl parent in *.
  - change (climb node (TsNode i t x k (Some p)) path)
      with (climb node p (climb_step node (TsNode i t x k (Some p)) path)).
    rewrite (IH p eq_refl), climb_step_key.
    destruct (enclosing_key node (TsNode i t x k (Some p))) as [key|].
    + simpl rev. now rewrite <- app_assoc.
    + reflexivity.
  - change (climb node (TsNode i t x k None) path)
      with (climb_step node (TsNode i t x k None) path).
    rewrite climb_step_key.
    destruct (enclosing_key node (TsNode i t x k None)) as [key|];
      reflexivity.
Qed.

Lemma get_yaml_full_path_spec (node : ts_node) :
  get_yaml_full_path node = qualified_path node.
Proof.
  unfold get_yaml_full_path, qualified_path. f_equal.
  rewrite (ancestors_eq node).
  destruct (parent node) as [p|]; [|reflexivity].
  apply climb_keys.
Qed.

End YamlFacts.

(** ** Cleaning a captured name *)

Module CleanFacts.
Import PyStr Builder Spec PyStrFacts.

Lemma unquote_cons (c : ascii) (s : string) :
  unquote (String c s) = if is_quote c then unquote s
                         else String c (unquote s).
Proof.
  unfold unquote, is_quote. simpl.
  destruct (Ascii.eqb c quote2) eqn:E2; simpl.
  - reflexivity.
  - now destruct (Ascii.eqb c quote1).
Qed.

Lemma quote_not_space (c : ascii) : is_quote c = true -> isspace c = false.
Proof.
  unfold is_quote. intros H. apply orb_true_iff in H as [H|H];
    apply Ascii.eqb_eq in H; subst c; reflexivity.
Qed.

Lemma has_quote_cons (c : ascii) (s : string) :
  has_quote (String c s) = is_quote c || has_quote s.
Proof.
  unfold has_quote, is_quote. simpl.
  destruct (Ascii.eqb c quote2), (Ascii.eqb c quote1),
           (has_char quote2 s), (has_char quote1 s); reflexivity.
Qed.

Lemma has_quote_clean (raw : string) : has_quote (clean_name raw) = false.
Proof.
  unfold has_quote, clean_name, strip, unquote.
  rewrite !has_char_strip; [reflexivity| |].
  - apply has_char_remove_same.
  - apply has_char_remove_other, has_char_remove_same.
Qed.

(** Leading quotes and blanks go either way. *)
Lemma lstrip_unquote (s : string) :
  lstrip_chars isspace (unquote s)
  = lstrip_chars isspace (unquote (lstrip_chars strippable s)).
Proof.
  induction s as [|c s IH]; [reflexivity|].
  simpl lstrip_chars at 3. unfold strippable at 1.
  destruct (is_quote c) eqn:Q; simpl orb.
  - rewrite unquote_cons, Q. exact IH.
  - destruct (isspace c) eqn:W.
    + rewrite unquote_cons, Q. simpl. rewrite W. exact IH.
    + reflexivity.
Qed.

Lemma lstrip_head (p : ascii -> bool) (s : string) :
  lstrip_chars p s = EmptyString
  \/ exists c r, lstrip_chars p s = String c r /\ p c = false.
Proof.
  induction s as [|c s IH]; simpl; [now left|].
  destruct (p c) eqn:E; [exact IH|]. right. eauto.
Qed.

Lemma rstrip_unquote (s : string) :
  has_quote (rstrip_chars strippable s) = false ->
  rstrip_chars isspace (unquote s) = rstrip_chars strippable s.
Proof.
  induction s as [|c s IH]; [reflexivity|].
  simpl rstrip_chars at 1 3.
  destruct (rstrip_chars strippable s) as [|x r] eqn:R.
  - specialize (IH eq_refl). unfold strippable at 1 2.
    destruct (is_quote c) eqn:Q; simpl orb.
    + intros _. rewrite unquote_cons, Q. exact IH.
    + rewrite unquote_cons, Q. simpl. rewrite IH.
      now destruct (isspace c).
  - rewrite has_quote_cons. intros H.
    apply orb_false_iff in H as [Q H].
    rewrite unquote_cons, Q. simpl. now rewrite (IH H).
Qed.

Lemma clean_agrees (raw : string) :
  has_quote (spec_clean raw) = false -> clean_name raw = spec_clean raw.
Proof.
  unfold clean_name, spec_clean, strip, strip_chars. intros H.
  rewrite lstrip_unquote.
  destruct (lstrip_head strippable raw) as [E|(c & r & E & Hc)];
    rewrite E in *; [reflexivity|].
  apply orb_false_iff in Hc as [Q W].
  rewrite unquote_cons, Q. simpl lstrip_chars. rewrite W.
  rewrite <- (rstrip_unquote _ H). now rewrite unquote_cons, Q.
Qed.

(** The two [replace] calls keep exactly the characters that are no
    quotes. *)
Lemma unquote_without_quotes (s : string) : unquote s = without_quotes s.
Proof.
  unfold without_quotes.
  induction s as [|c s IH]; [reflexivity|].
  rewrite unquote_cons. simpl. destruct (is_quote c); simpl; now rewrite IH.
Qed.

Lemma lstrip_drop_while (p : ascii -> bool) (s : string) :
  list_ascii_of_string (lstrip_chars p s)
  = drop_while p (list_ascii_of_string s).
Proof.
  induction s as [|c s IH]; simpl; [reflexivity|].
  now destruct (p c).
Qed.

Lemma drop_while_snoc (p : ascii -> bool) (l : list ascii) (c : ascii) :
  drop_while p (l ++ [c])
  = match drop_while p l with
    | [] => if p c then [] else [c]
    | r => r ++ [c]
    end.
Proof.
  induction l as [|d l IH]; simpl; [reflexivity|].
  destruct (p d); [exact IH|reflexivity].
Qed.

(** The scan from the right is the scan from the left of the text read
    backwards. *)
Lemma rstrip_drop_while (p : ascii -> bool) (s : string) :
  list_ascii_of_string (rstrip_chars p s)
  = rev (drop_while p (rev (list_ascii_of_string s))).
Proof.
  induction s as [|c s IH]; simpl; [reflexivity|].
  rewrite drop_while_snoc.
  destruct (rstrip_chars p s) as [|x r] eqn:R; simpl in IH.
  - destruct (drop_while p (rev (list_ascii_of_string s))) as [|y t] eqn:D.
    + now destruct (p c).
    + exfalso. simpl in IH. symmetry in IH.
      now apply app_eq_nil in IH as [_ IH].
  - destruct (drop_while p (rev (list_ascii_of_string s))) as [|y t] eqn:D;
      [discriminate IH|].
    rewrite rev_app_distr. simpl. simpl in IH. now rewrite <- IH.
Qed.

Lemma strip_trimmed (s : string) : strip s = trimmed s.
Proof.
  unfold trimmed, strip, strip_chars.
  rewrite <- lstrip_drop_while, <- rstrip_drop_while.
  now rewrite string_of_list_ascii_of_string.
Qed.

End CleanFacts.

(** ** Which names pass [is_valid_identifier] *)

Module ValidFacts.
Import PyStr Nx Builder Spec PyStrFacts NxFacts.

Lemma is_valid_identifier_eq (name : string) :
  is_valid_identifier name
  = negb (String.eqb name "") && forallb_str allowed_char name.
Proof.
  unfold is_valid_identifier, search_outside.
  destruct (String.eqb name ""); [reflexivity|].
  now destruct (forallb_str allowed_char name).
Qed.

Ltac by_cases_on c :=
  destruct c as [[] [] [] [] [] [] [] []];
  try reflexivity; try discriminate.

(** On ASCII the pattern's class is the set the specification writes. *)
Lemma allowed_char_ascii (c : ascii) :
  is_ascii c = true -> allowed_char c = spec_char c.
Proof. by_cases_on c. Qed.

Lemma spec_char_allowed (c : ascii) :
  spec_char c = true -> allowed_char c = true.
Proof. by_cases_on c. Qed.

Lemma space_not_allowed (c : ascii) :
  isspace c = true -> allowed_char c = false.
Proof. by_cases_on c. Qed.

Lemma node_get_add_definition (rel_path name : string) (g : DiGraph) :
  exists a,
    node_get (add_definition rel_path name g) (get_node_id rel_path name)
    = Some a
    /\ a_type a = Some "definition" /\ a_name a = Some name.
Proof.
  unfold add_definition. eexists. split.
  - apply node_get_add_edge. apply node_get_add_node_same.
  - split; reflexivity.
Qed.

Lemma edge_get_add_definition (rel_path name : string) (g : DiGraph) :
  edge_get (add_definition rel_path name g) rel_path
           (get_node_id rel_path name) = Some "contains".
Proof. unfold add_definition. apply edge_get_add_edge_same. Qed.

End ValidFacts.

(** ** Extraction keeps the graph well formed *)

Module ExtractFacts.
Import PyStr Nx Builder Spec Invariants PyStrFacts NxFacts ResolverFacts.

Lemma id_has_colon (f name : string) :
  colon_free (f ++ "::" ++ name) = false.
Proof.
  unfold colon_free. rewrite has_char_app. simpl.
  now rewrite orb_true_r.
Qed.

Lemma id_owner_unique (f f' n n' : string) :
  colon_free f = true -> colon_free f' = true ->
  (f ++ "::" ++ n = f' ++ "::" ++ n')%string -> f = f'.
Proof.
  unfold colon_free. intros H H' E.
  apply negb_true_iff in H, H'.
  exact (first_char_unique ":"%char f f' _ _ H H' E).
Qed.

Lemma is_file_not_id (g : DiGraph) (f name : string) :
  well_formed g -> ~ is_file g (f ++ "::" ++ name).
Proof.
  intros W H. apply (wf_file W) in H. now rewrite id_has_colon in H.
Qed.

Lemma well_formed_empty : well_formed Nx.empty.
Proof.
  split.
  - constructor.
  - intros n (a & H & _). discriminate.
  - intros n (a & H & _). discriminate.
  - intros u v H. discriminate.
Qed.

(** *** Adding the file node *)

Lemma is_file_add_file (g : DiGraph) (rel l n : string) :
  is_file (add_node g rel (Attrs (Some "file") (Some l) None)) n
  <-> n = rel \/ is_file g n.
Proof.
  unfold is_file. destruct (String.eqb n rel) eqn:E.
  - apply String.eqb_eq in E. subst n.
    rewrite node_get_add_node_same. split; [now left|]. intros _.
    eexists. split; reflexivity.
  - apply String.eqb_neq in E. rewrite node_get_add_node_other by exact E.
    split; [now right|]. now intros [?|?].
Qed.

Lemma is_definition_add_file (g : DiGraph) (rel l n : string) :
  is_definition (add_node g rel (Attrs (Some "file") (Some l) None)) n ->
  is_definition g n.
Proof.
  unfold is_definition. destruct (String.eqb n rel) eqn:E.
  - apply String.eqb_eq in E. subst n.
    rewrite node_get_add_node_same. intros (a & [= <-] & H). discriminate.
  - apply String.eqb_neq in E. now rewrite node_get_add_node_other.
Qed.

Lemma well_formed_add_file (g : DiGraph) (rel l : string) :
  well_formed g -> colon_free rel = true ->
  well_formed (add_node g rel (Attrs (Some "file") (Some l) None)).
Proof.
  intros W C. split.
  - exact (wf_keys W).
  - intros n H. apply is_file_add_file in H as [->|H]; [exact C|].
    exact (wf_file W _ H).
  - intros n H. apply is_definition_add_file in H.
    destruct (wf_def W _ H) as (f & name & E & Cf & Ff & Ef).
    exists f, name. repeat split; try assumption.
    apply is_file_add_file. now right.
  - exact (wf_contains W).
Qed.

(** *** Adding a definition *)

Lemma nodes_add_definition (rel name : string) (g : DiGraph) :
  has_node g rel = true ->
  nodes (add_definition rel name g)
  = nodes (add_node g (get_node_id rel name)
                    (Attrs (Some "definition") None (Some name))).
Proof.
  intros H. unfold add_definition. apply nodes_add_edge.
  - now apply has_node_add_node.
  - apply has_node_add_node_same.
Qed.

Lemma node_get_add_definition_other (rel name n : string) (g : DiGraph) :
  has_node g rel = true -> n <> get_node_id rel name ->
  node_get (add_definition rel name g) n = node_get g n.
Proof.
  intros H N. unfold node_get. rewrite nodes_add_definition by exact H.
  now apply node_get_add_node_other.
Qed.

Lemma node_get_add_definition_same (rel name : string) (g : DiGraph) :
  has_node g rel = true ->
  node_get (add_definition rel name g) (get_node_id rel name)
  = Some (update_attrs
            (match node_get g (get_node_id rel name) with
             | Some o => o
             | None => no_attrs
             end)
            (Attrs (Some "definition") None (Some name))).
Proof.
  intros H. unfold node_get at 1. rewrite nodes_add_definition by exact H.
  apply node_get_add_node_same.
Qed.

Lemma edge_get_add_definition_cases (rel name u v : string) (g : DiGraph) :
  (u = rel /\ v = get_node_id rel name
   /\ edge_get (add_definition rel name g) u v = Some "contains")
  \/ ((u, v) <> (rel, get_node_id rel name)
      /\ edge_get (add_definition rel name g) u v = edge_get g u v).
Proof.
  unfold add_definition.
  destruct (Nx.edge_eqb (u, v) (rel, get_node_id rel name)) eqn:E.
  - apply edge_eqb_ok in E. injection E as -> ->. left.
    repeat split. apply edge_get_add_edge_same.
  - right. assert (N : (u, v) <> (rel, get_node_id rel name)).
    { intros Heq. apply edge_eqb_ok in Heq. congruence. }
    split; [exact N|].
    rewrite edge_get_add_edge_other by exact N. reflexivity.
Qed.

Lemma is_file_add_definition (rel name n : string) (g : DiGraph) :
  well_formed g -> has_node g rel = true ->
  is_file (add_definition rel name g) n <-> is_file g n.
Proof.
  intros W H. unfold is_file.
  destruct (String.eqb n (get_node_id rel name)) eqn:E.
  - apply String.eqb_eq in E. subst n.
    rewrite node_get_add_definition_same by exact H. split.
    + intros (a & [= <-] & T). discriminate.
    + intros F. exfalso. exact (is_file_not_id g rel _ W F).
  - apply String.eqb_neq in E.
    now rewrite node_get_add_definition_other.
Qed.

Lemma is_definition_add_definition (rel name n : string) (g : DiGraph) :
  has_node g rel = true ->
  is_definition (add_definition rel name g) n ->
  n = get_node_id rel name \/ is_definition g n.
Proof.
  intros H. destruct (String.eqb n (get_node_id rel name)) eqn:E.
  - apply String.eqb_eq in E. now left.
  - apply String.eqb_neq in E. unfold is_definition.
    rewrite node_get_add_definition_other by assumption. now right.
Qed.

Lemma well_formed_add_definition (rel name : string) (g : DiGraph) :
  well_formed g -> colon_free rel = true -> is_file g rel ->
  well_formed (add_definition rel name g).
Proof.
  intros W C F.
  assert (Hn : has_node g rel = true).
  { destruct F as (a & Ha & _). eapply has_node_get; eauto. }
  split.
  - unfold add_definition. apply NoDup_edges_add_edge. exact (wf_keys W).
  - intros n H. apply is_file_add_definition in H; try assumption.
    exact (wf_file W _ H).
  - intros n H. apply is_definition_add_definition in H as [->|H];
      try assumption.
    + exists rel, (unquote name). repeat split; try assumption.
      * now apply is_file_add_definition.
      * apply ValidFacts.edge_get_add_definition.
    + destruct (wf_def W _ H) as (f & nm & E & Cf & Ff & Ef).
      exists f, nm. repeat split; try assumption.
      * now apply is_file_add_definition.
      * destruct (edge_get_add_definition_cases rel name f n g)
          as [(_ & _ & K)|(_ & K)]; congruence.
  - intros u v H.
    destruct (edge_get_add_definition_cases rel name u v g)
      as [(-> & -> & _)|(_ & K)].
    + split; [exact C|]. now exists (unquote name).
    + rewrite K in H. exact (wf_contains W _ _ H).
Qed.

Lemma is_file_process_capture (rel ext n : string) (g : DiGraph)
      (cap : ts_node * string) :
  well_formed g -> has_node g rel = true ->
  is_file (process_capture rel ext g cap) n <-> is_file g n.
Proof.
  intros W H. unfold process_capture.
  destruct (String.eqb (snd cap) "name"); [|reflexivity].
  destruct (is_valid_identifier _); simpl; [|reflexivity].
  now apply is_file_add_definition.
Qed.

Lemma well_formed_process_capture (rel ext : string) (g : DiGraph)
      (cap : ts_node * string) :
  well_formed g -> colon_free rel = true -> is_file g rel ->
  well_formed (process_capture rel ext g cap).
Proof.
  intros W C F. unfold process_capture.
  destruct (String.eqb (snd cap) "name"); [|exact W].
  destruct (is_valid_identifier _); simpl; [|exact W].
  now apply well_formed_add_definition.
Qed.

Lemma well_formed_captures (rel ext : string)
      (caps : list (ts_node * string)) (g : DiGraph) :
  well_formed g -> colon_free rel = true -> is_file g rel ->
  well_formed (fold_left (process_capture rel ext) caps g).
Proof.
  intros W C F.
  apply (fold_left_inv _ _ (fun x => well_formed x /\ is_file x rel));
    [|now split].
  intros x cap _ [Wx Fx]. split.
  - now apply well_formed_process_capture.
  - apply is_file_process_capture; try assumption.
    destruct Fx as (a & Ha & _). eapply has_node_get; eauto.
Qed.

Lemma well_formed_parse_file (w : world) (rel : string) (b : builder) :
  well_formed (graph b) -> colon_free rel = true ->
  well_formed (graph (parse_file w rel b)).
Proof.
  intros W C. unfold parse_file.
  destruct (lookup_config (OsPath.basename rel)) as [e|]; [|exact W].
  pose proof (well_formed_add_file (graph b) rel
    (if String.eqb (OsPath.splitext_ext (OsPath.basename rel)) ""
     then "docker" else OsPath.splitext_ext (OsPath.basename rel)) W C)
    as W'.
  destruct (load_captures w rel e) as [caps|x]; simpl; [|exact W'].
  apply well_formed_captures; try assumption.
  apply is_file_add_file. now left.
Qed.

Lemma well_formed_ingest (w : world) (b : builder) :
  (forall p, In p (walked_paths w) -> colon_free p = true) ->
  well_formed (graph b) -> well_formed (graph (ingest w b)).
Proof.
  intros Hp W. unfold ingest.
  apply (fold_left_inv _ _ (fun x => well_formed (graph x))); [|exact W].
  intros x [rel_dir files] Hd Wx. unfold scan_dir.
  destruct (ignored (root_of w rel_dir)) eqn:Ig; [exact Wx|].
  apply (fold_left_inv _ _ (fun x => well_formed (graph x))); [|exact Wx].
  intros y file Hf Wy. apply well_formed_parse_file; [exact Wy|].
  apply Hp. unfold walked_paths. apply in_flat_map.
  exists (rel_dir, files). split.
  - apply filter_In. split; [exact Hd|]. simpl. now rewrite Ig.
  - simpl. now apply in_map.
Qed.

End ExtractFacts.

(** ** The finished graph *)

Module BuildFacts.
Import PyStr Nx Builder Spec Invariants.
Import PyStrFacts NxFacts ResolverFacts ExtractFacts.

Lemma NoDup_edges_resolve (w : world) (g : DiGraph) :
  NoDup (map fst (edges g)) -> NoDup (map fst (edges (resolve w g))).
Proof.
  intros N. unfold resolve.
  apply (fold_left_inv _ _ (fun x => NoDup (map fst (edges x))));
    [|exact N].
  intros x f _ Nx. unfold scan_file.
  destruct (read_text w f) as [content|e]; [|exact Nx].
  apply (fold_left_inv _ _ (fun x => NoDup (map fst (edges x))));
    [|exact Nx].
  intros y [k ts] _ Ny. unfold scan_name.
  destruct ((3 <? String.length k)%nat && contains content k); [|exact Ny].
  unfold link_targets.
  apply (fold_left_inv _ _ (fun x => NoDup (map fst (edges x))));
    [|exact Ny].
  intros z t _ Nz. destruct (negb (startswith t f)); [|exact Nz].
  now apply NoDup_edges_add_edge.
Qed.

Lemma node_get_resolve (w : world) (g : DiGraph) (n : string) :
  node_get (resolve w g) n = node_get g n.
Proof. unfold node_get. now rewrite resolve_nodes. Qed.

Lemma well_formed_resolve (w : world) (g : DiGraph) :
  well_formed g -> well_formed (resolve w g).
Proof.
  intros W. pose proof (resolve_adds w g) as A. split.
  - apply NoDup_edges_resolve, (wf_keys W).
  - intros n H. unfold is_file in H. rewrite node_get_resolve in H.
    exact (wf_file W _ H).
  - intros n H. unfold is_definition in H. rewrite node_get_resolve in H.
    destruct (wf_def W _ H) as (f & name & E & Cf & Ff & Ef).
    exists f, name. repeat split; try assumption.
    + unfold is_file. now rewrite node_get_resolve.
    + destruct (A f n) as [K|(_ & _ & K & _)]; [congruence|].
      subst n. now rewrite startswith_refl_app in K.
  - intros u v H. destruct (A u v) as [K|(K & _)]; [|congruence].
    rewrite K in H. exact (wf_contains W _ _ H).
Qed.

Lemma well_formed_build (w : world) :
  (forall p, In p (walked_paths w) -> colon_free p = true) ->
  well_formed (graph (build w init)).
Proof.
  intros Hp. unfold build, build_cross_reference. simpl.
  apply well_formed_resolve, well_formed_ingest; [exact Hp|].
  apply well_formed_empty.
Qed.

Lemma NoDup_all_equal (A : Type) (x : A) (l : list A) :
  NoDup l -> In x l -> (forall y, In y l -> y = x) -> l = [x].
Proof.
  intros N Hin Hall. destruct l as [|a l]; [contradiction|].
  assert (a = x) by (apply Hall; now left). subst a.
  destruct l as [|b l]; [reflexivity|].
  assert (b = x) by (apply Hall; right; now left). subst b.
  inversion N as [|? ? Hn _]. exfalso. apply Hn. now left.
Qed.

Lemma NoDup_of_keys (A B : Type) (l : list (A * B)) :
  NoDup (map fst l) -> NoDup l.
Proof.
  induction l as [|x l IH]; simpl; intros N; [constructor|].
  inversion N as [|? ? Hn N']; subst. constructor; [|auto].
  intros Hx. apply Hn. now apply in_map.
Qed.

(** In a well-formed graph a definition has one incoming [contains]
    edge, and it comes from the file its identity starts with. *)
Lemma in_edges_definition (g : DiGraph) (n : string) :
  well_formed g -> is_definition g n ->
  exists f name,
    in_edges g n "contains" = [f] /\ is_file g f
    /\ n = (f ++ "::" ++ name)%string.
Proof.
  intros W D.
  destruct (wf_def W _ D) as (f & name & E & Cf & Ff & Ef).
  exists f, name. repeat split; try assumption.
  unfold in_edges.
  rewrite (NoDup_all_equal _ ((f, n), "contains")
             (filter (fun e => String.eqb (snd (fst e)) n
                               && String.eqb (snd e) "contains")
                     (edges g))).
  - reflexivity.
  - apply NoDup_filter, NoDup_of_keys, (wf_keys W).
  - apply filter_In. split.
    + apply (ODictFacts.get_In edge_eqb edge_eqb_ok). exact Ef.
    + simpl. now rewrite !String.eqb_refl.
  - intros [[u v] r] H. apply filter_In in H as [Hin Hc]. simpl in Hc.
    apply andb_true_iff in Hc as [Hv Hr].
    apply String.eqb_eq in Hv, Hr. subst v r.
    apply (ODictFacts.NoDup_In_get edge_eqb edge_eqb_ok) in Hin;
      [|exact (wf_keys W)].
    destruct (wf_contains W _ _ Hin) as (Cu & name' & E').
    rewrite E in E'.
    now rewrite (id_owner_unique f u name name' Cf Cu E').
Qed.

(** *** Repeated names *)

Lemma update_definition_id (a : attrs) (name : string) :
  a_type a = Some "definition" -> a_name a = Some name ->
  update_attrs a (Attrs (Some "definition") None (Some name)) = a.
Proof. destruct a as [t l n]. simpl. now intros -> ->. Qed.

Lemma add_definition_settled (rel name : string) (g : DiGraph) :
  settled rel name g -> add_definition rel name g = g.
Proof.
  intros ((a & Ha & Ta & Na) & Hr & He).
  unfold add_definition.
  assert (E1 : add_node g (get_node_id rel name)
                 (Attrs (Some "definition") None (Some name)) = g).
  { unfold add_node. rewrite Ha, (update_definition_id a name Ta Na).
    unfold node_get in Ha.
    rewrite (ODictFacts.set_get_id String.eqb string_eqb_ok _ _ _ Ha).
    now destruct g. }
  rewrite E1. unfold add_edge.
  rewrite Hr, (has_node_get _ _ _ Ha). unfold edge_get in He.
  rewrite (ODictFacts.set_get_id edge_eqb edge_eqb_ok _ _ _ He).
  now destruct g.
Qed.

Lemma settled_add_definition (rel name : string) (g : DiGraph) :
  settled rel name (add_definition rel name g).
Proof.
  split; [apply ValidFacts.node_get_add_definition|]. split.
  - unfold add_definition.
    destruct (ValidFacts.node_get_add_definition rel name g) as (a & H & _).
    unfold add_definition in H. clear H.
    unfold add_edge.
    set (g1 := add_node g (get_node_id rel name) _).
    destruct (has_node g1 rel) eqn:E.
    + destruct (has_node g1 (get_node_id rel name)); simpl.
      * exact E.
      * now apply (has_node_add_node g1).
    + set (g2 := add_node g1 rel no_attrs).
      assert (H2 : has_node g2 rel = true)
        by apply has_node_add_node_same.
      destruct (has_node g2 (get_node_id rel name)); simpl.
      * exact H2.
      * now apply (has_node_add_node g2).
  - apply ValidFacts.edge_get_add_definition.
Qed.

Lemma app_inv_head_str (p a b : string) :
  (p ++ a = p ++ b)%string -> a = b.
Proof. induction p as [|c p IH]; simpl; [auto|]. intros [= H]. auto. Qed.

Lemma unquote_clean (s : string) :
  has_quote s = false -> unquote s = s.
Proof.
  unfold has_quote, unquote. intros H.
  apply orb_false_iff in H as [H2 H1].
  now rewrite (remove_char_absent _ _ H2), (remove_char_absent _ _ H1).
Qed.

Lemma settled_other (rel name name2 : string) (g : DiGraph) :
  has_quote name = false -> has_quote name2 = false ->
  settled rel name g -> settled rel name (add_definition rel name2 g).
Proof.
  intros Q Q2 S.
  destruct (String.eqb name2 name) eqn:E.
  - apply String.eqb_eq in E. subst name2.
    now rewrite add_definition_settled.
  - apply String.eqb_neq in E.
    assert (N : get_node_id rel name <> get_node_id rel name2).
    { unfold get_node_id. rewrite (unquote_clean _ Q), (unquote_clean _ Q2).
      intros H. apply app_inv_head_str in H. simpl in H.
      injection H as H. congruence. }
    destruct S as ((a & Ha & Ta & Na) & Hr & He).
    split; [|split].
    + exists a. split; [|now split].
      now rewrite node_get_add_definition_other.
    + unfold has_node, ODict.mem.
      rewrite nodes_add_definition by exact Hr.
      now apply (has_node_add_node g).
    + destruct (edge_get_add_definition_cases rel name2 rel
                  (get_node_id rel name) g) as [(_ & K & _)|(_ & K)];
        congruence.
Qed.

Lemma settled_process_capture (rel ext name : string) (g : DiGraph)
      (cap : ts_node * string) :
  has_quote name = false -> settled rel name g ->
  settled rel name (process_capture rel ext g cap).
Proof.
  intros Q S. unfold process_capture.
  destruct (String.eqb (snd cap) "name"); [|exact S].
  destruct (is_valid_identifier _); simpl; [|exact S].
  apply settled_other; try assumption. apply CleanFacts.has_quote_clean.
Qed.

Lemma settled_after (rel ext : string) (cs : list (ts_node * string))
      (c : ts_node * string) (g : DiGraph) :
  In c cs -> snd c = "name" ->
  is_valid_identifier (clean_name (raw_name ext (fst c))) = true ->
  settled rel (clean_name (raw_name ext (fst c)))
          (fold_left (process_capture rel ext) cs g).
Proof.
  intros Hin Hn Hv. apply in_split in Hin as (l1 & l2 & ->).
  rewrite fold_left_app. simpl.
  apply (fold_left_inv _ _
           (settled rel (clean_name (raw_name ext (fst c))))).
  - intros x cap _ Sx. apply settled_process_capture; [|exact Sx].
    apply CleanFacts.has_quote_clean.
  - unfold process_capture at 1. rewrite Hn, Hv. simpl.
    apply settled_add_definition.
Qed.

End BuildFacts.

(** ** The last segment of a dotted name *)

Module SplitFacts.
Import PyStr Nx Builder Spec NxFacts IndexFacts.

Lemma split_no_sep (c : ascii) (s seg : string) :
  In seg (split c s) -> has_char c seg = false.
Proof.
  revert seg. induction s as [|d s IH]; simpl; intros seg H.
  - destruct H as [<-|[]]. reflexivity.
  - destruct (Ascii.eqb d c) eqn:E.
    + destruct H as [<-|H]; [reflexivity|auto].
    + destruct (split c s) as [|w ws].
      * destruct H as [<-|[]]. simpl. now rewrite E.
      * destruct H as [<-|H].
        -- simpl. rewrite E. apply IH. now left.
        -- apply IH. now right.
Qed.

Lemma split_nonempty (c : ascii) (s : string) : split c s <> [].
Proof.
  destruct s as [|d s]; simpl; [discriminate|].
  destruct (Ascii.eqb d c); [discriminate|].
  destruct (split c s); discriminate.
Qed.

Lemma last_In (A : Type) (l : list A) (d : A) : l <> [] -> In (last l d) l.
Proof.
  induction l as [|a l IH]; [congruence|]. intros _.
  destruct l as [|b l]; [now left|].
  right. apply IH. discriminate.
Qed.

Lemma split_last_no_sep (c : ascii) (s : string) :
  has_char c (split_last c s) = false.
Proof.
  unfold split_last. apply (split_no_sep c s).
  apply last_In, split_nonempty.
Qed.

(** One turn of the indexing loop at a dotted name: both keys get the
    node appended to what they held. *)
Lemma index_node_appends (d : index) (node name : string) (attr : attrs) :
  has_type "definition" attr = true -> a_name attr = Some name ->
  has_char "." name = true ->
  ODict.get String.eqb (index_node d (node, attr)) name
  = Some (listed d name ++ [node])
  /\ ODict.get String.eqb (index_node d (node, attr)) (split_last "." name)
     = Some (listed d (split_last "." name) ++ [node]).
Proof.
  intros Ht Hn Hd. unfold index_node.
  rewrite Ht, Hn, (has_char_nonempty _ _ Hd), Hd.
  assert (N : name <> split_last "." name).
  { intros E. rewrite E in Hd. now rewrite split_last_no_sep in Hd. }
  split.
  - unfold index_append at 1.
    rewrite ODictFacts.get_set_other; auto using string_eqb_ok.
    apply index_append_same.
  - rewrite index_append_same. unfold listed, index_append.
    rewrite ODictFacts.get_set_other; auto using string_eqb_ok.
Qed.

End SplitFacts.

(** ** File nodes come from the registry *)

Module RegistryFacts.
Import PyStr Nx Builder Spec Invariants NxFacts ResolverFacts.

Lemma node_get_add_node_inv (g : DiGraph) (n m : string) (a x : attrs) :
  node_get (add_node g n a) m = Some x ->
  node_get g m = Some x
  \/ (m = n /\ x = update_attrs
                     (match node_get g n with Some o => o | None => no_attrs end)
                     a).
Proof.
  destruct (String.eqb m n) eqn:E.
  - apply String.eqb_eq in E. subst m. rewrite node_get_add_node_same.
    intros [= <-]. now right.
  - apply String.eqb_neq in E. rewrite node_get_add_node_other by exact E.
    now left.
Qed.

(** A node [add_edge] had to create has no attributes. *)
Lemma node_get_add_edge_inv (g : DiGraph) (u v r n : string) (x : attrs) :
  node_get (add_edge g u v r) n = Some x ->
  node_get g n = Some x \/ x = no_attrs.
Proof.
  unfold add_edge.
  set (g1 := if has_node g u then g else add_node g u no_attrs).
  set (g2 := if has_node g1 v then g1 else add_node g1 v no_attrs).
  change (node_get g2 n = Some x -> node_get g n = Some x \/ x = no_attrs).
  assert (K : forall g0 m, has_node g0 m = false ->
              node_get (add_node g0 m no_attrs) n = Some x ->
              node_get g0 n = Some x \/ x = no_attrs).
  { intros g0 m Hm H. apply node_get_add_node_inv in H as [H|[-> ->]];
      [now left|right].
    unfold has_node, ODict.mem in Hm. fold (node_get g0 m) in Hm.
    now destruct (node_get g0 m). }
  intros H. subst g2.
  destruct (has_node g1 v) eqn:Hv.
  - subst g1. destruct (has_node g u) eqn:Hu; [now left|].
    now apply (K g u).
  - apply (K g1 v Hv) in H as [H|H]; [|now right].
    subst g1. destruct (has_node g u) eqn:Hu; [now left|].
    now apply (K g u).
Qed.

Lemma is_file_add_definition_inv (rel name n : string) (g : DiGraph) :
  is_file (add_definition rel name g) n -> is_file g n.
Proof.
  intros (a & Ha & Ta). unfold add_definition in Ha.
  apply node_get_add_edge_inv in Ha as [Ha| ->]; [|discriminate].
  apply node_get_add_node_inv in Ha as [Ha|[_ ->]]; [|discriminate].
  now exists a.
Qed.

Lemma is_file_captures_inv (rel ext n : string)
      (caps : list (ts_node * string)) (g : DiGraph) :
  is_file (fold_left (process_capture rel ext) caps g) n -> is_file g n.
Proof.
  revert g. induction caps as [|cap caps IH]; intros g H; [exact H|].
  simpl in H. apply IH in H. unfold process_capture in H.
  destruct (String.eqb (snd cap) "name"); [|exact H].
  destruct (is_valid_identifier _); simpl in H; [|exact H].
  now apply is_file_add_definition_inv in H.
Qed.

Lemma is_file_parse_file_inv (w : world) (rel n : string) (b : builder) :
  is_file (graph (parse_file w rel b)) n ->
  is_file (graph b) n
  \/ (n = rel /\ lookup_config (OsPath.basename rel) <> None).
Proof.
  unfold parse_file.
  destruct (lookup_config (OsPath.basename rel)) as [e|] eqn:L;
    [|now left].
  intros H.
  assert (K : is_file (add_node (graph b) rel
                (Attrs (Some "file")
                   (Some (if String.eqb (OsPath.splitext_ext
                                           (OsPath.basename rel)) ""
                          then "docker"
                          else OsPath.splitext_ext (OsPath.basename rel)))
                   None)) n).
  { destruct (load_captures w rel e) as [caps|x]; simpl in H; [|exact H].
    now apply is_file_captures_inv in H. }
  destruct K as (a & Ha & Ta).
  apply node_get_add_node_inv in Ha as [Ha|[-> _]].
  - left. now exists a.
  - right. split; [reflexivity|discriminate].
Qed.

Lemma is_file_ingest_inv (w : world) (b : builder) (n : string) :
  is_file (graph (ingest w b)) n ->
  is_file (graph b) n \/ lookup_config (OsPath.basename n) <> None.
Proof.
  unfold ingest.
  apply (fold_left_inv _ _
           (fun x => is_file (graph x) n ->
                     is_file (graph b) n
                     \/ lookup_config (OsPath.basename n) <> None));
    [|now left].
  intros x [rel_dir files] _ Hx. unfold scan_dir.
  destruct (ignored (root_of w rel_dir)); [exact Hx|].
  apply (fold_left_inv _ _
           (fun x => is_file (graph x) n ->
                     is_file (graph b) n
                     \/ lookup_config (OsPath.basename n) <> None));
    [|exact Hx].
  intros y file _ Hy H.
  apply is_file_parse_file_inv in H as [H|[-> H]]; [auto|now right].
Qed.

Lemma is_file_build_registered (w : world) (n : string) :
  is_file (graph (build w init)) n ->
  lookup_config (OsPath.basename n) <> None.
Proof.
  unfold build, build_cross_reference, is_file. simpl.
  unfold node_get. rewrite resolve_nodes. intros H.
  apply (is_file_ingest_inv w init n) in H as [(a & Ha & _)|H];
    [discriminate|exact H].
Qed.

End RegistryFacts.

(* ================================================================== *)
(** * The claims *)

Import PyStr Nx Builder Spec Invariants Scenarios.

(** ** C1: files of an unregistered format *)

(** C1, as stated, fails.  [README.md] has no entry in the registry, and
    neither [parse_file] nor a whole [build] leaves a node for it, bare or
    otherwise: the early [return] precedes [add_node]. *)
Lemma C1_unregistered_file_gets_no_node :
  lookup_config (OsPath.basename "README.md") = None
  /\ node_get (graph (parse_file w_readme "README.md" init)) "README.md"
     = None
  /\ node_get (graph (build w_readme init)) "README.md" = None
  /\ out (build w_readme init) = [].
Proof. repeat split; reflexivity. Qed.

(** C1, amended: for a file whose base name and extension have no entry in
    the registry, [parse_file] returns the builder as it found it (no node
    is created, no edge, and nothing is reported), and no build has a file
    node for it. *)
Theorem C1_unregistered_file_is_skipped
        (w : world) (rel_path : string) (b : builder) :
  lookup_config (OsPath.basename rel_path) = None ->
  parse_file w rel_path b = b
  /\ ~ is_file (graph (build w init)) rel_path.
Proof.
  intros H. split.
  - unfold parse_file. now rewrite H.
  - intros F. now apply RegistryFacts.is_file_build_registered in F.
Qed.

Lemma C1_unregistered_file_is_skipped_witness :
  lookup_config (OsPath.basename "README.md") = None
  /\ parse_file w_readme "README.md" init = init
  /\ ~ is_file (graph (build w_readme init)) "README.md".
Proof.
  split; [reflexivity|].
  apply (C1_unregistered_file_is_skipped w_readme "README.md" init).
  reflexivity.
Defined.

(** ** C2: no reference to a definition of one's own *)

(** C2: whatever the graph, [build_cross_reference] leaves the edge from a
    file node [f] to a node named [f::name] as it was; in particular it
    never makes it a [references] edge. *)
Theorem C2_no_reference_to_own_definition
        (w : world) (b : builder) (f name : string) :
  edge_get (graph (build_cross_reference w b)) f (f ++ "::" ++ name)%string
  = edge_get (graph b) f (f ++ "::" ++ name)%string.
Proof.
  simpl.
  destruct (ResolverFacts.resolve_adds w (graph b) f
              (f ++ "::" ++ name)%string) as [E|(_ & _ & K & _)];
    [exact E|].
  now rewrite PyStrFacts.startswith_refl_app in K.
Qed.

(** ** C10: the guard is a prefix test *)

(** C10: the guard compares by prefix, so the resolver leaves the edge from
    [f] to any node whose identity starts with [f] as it was, also when the
    node belongs to another file. *)
Theorem C10_prefix_guard_covers_other_files
        (w : world) (b : builder) (f t : string) :
  startswith t f = true ->
  edge_get (graph (build_cross_reference w b)) f t = edge_get (graph b) f t.
Proof.
  intros G. simpl.
  destruct (ResolverFacts.resolve_adds w (graph b) f t)
    as [E|(_ & _ & K & _)]; [exact E|congruence].
Qed.

Lemma C10_prefix_guard_covers_other_files_witness :
  startswith "main.py.yaml::database.db_host" "main.py" = true
  /\ edge_get (graph (build_cross_reference w_prefix (ingest w_prefix init)))
              "main.py" "main.py.yaml::database.db_host"
     = edge_get (graph (ingest w_prefix init))
                "main.py" "main.py.yaml::database.db_host".
Proof.
  split; [reflexivity|].
  apply (C10_prefix_guard_covers_other_files w_prefix
           (ingest w_prefix init) "main.py"
           "main.py.yaml::database.db_host").
  reflexivity.
Defined.

(** ** C8: the qualified name of a YAML key *)

(** C8: in a file whose extension is [.yaml] or [.yml] the name of a
    capture is the key texts of the mapping pairs that enclose it,
    outermost first, then its own text, joined by dots; in a file of any
    other extension it is the captured text. *)
Theorem C8_qualified_name (ext : string) (node : ts_node) :
  (ext = ".yaml" \/ ext = ".yml" -> raw_name ext node = qualified_path node)
  /\ (ext <> ".yaml" -> ext <> ".yml" -> raw_name ext node = node_text node).
Proof.
  split.
  - intros [-> | ->]; apply YamlFacts.get_yaml_full_path_spec.
  - intros N1 N2. apply String.eqb_neq in N1, N2.
    unfold raw_name, is_yaml_ext. now rewrite N1, N2.
Qed.

Lemma C8_qualified_name_witness :
  (".yml" = ".yaml" \/ ".yml" = ".yml")
  /\ ".tf" <> ".yaml" /\ ".tf" <> ".yml"
  /\ raw_name ".yml" t_key_host = "database.db_host"
  /\ raw_name ".tf" t_key_host = "db_host".
Proof.
  assert (Y : ".yml" = ".yaml" \/ ".yml" = ".yml") by (right; reflexivity).
  assert (N1 : ".tf" <> ".yaml") by discriminate.
  assert (N2 : ".tf" <> ".yml") by discriminate.
  split; [exact Y|]. split; [exact N1|]. split; [exact N2|]. split.
  - exact (proj1 (C8_qualified_name ".yml" t_key_host) Y).
  - exact (proj2 (C8_qualified_name ".tf" t_key_host) N1 N2).
Defined.

(** ** C9: cleaning *)

(** C9, as stated, fails: a quote inside the text is removed too. *)
Lemma C9_interior_quote_is_removed :
  clean_name "a'b" = "ab" /\ spec_clean "a'b" = "a'b".
Proof. split; reflexivity. Qed.

(** C9, amended: the cleaned name is the raw text with every quote
    character removed, wherever it stood, and then its surrounding
    whitespace removed, so it never holds a quote; it is the raw text
    without its surrounding quotes and whitespace exactly when that text
    has no quote left inside. *)
Theorem C9_clean_name_drops_every_quote (raw : string) :
  clean_name raw = trimmed (without_quotes raw)
  /\ has_quote (clean_name raw) = false
  /\ String.eqb (clean_name raw) (spec_clean raw)
     = negb (has_quote (spec_clean raw)).
Proof.
  split.
  { unfold clean_name.
    now rewrite CleanFacts.strip_trimmed, CleanFacts.unquote_without_quotes. }
  split; [apply CleanFacts.has_quote_clean|].
  destruct (has_quote (spec_clean raw)) eqn:Q; simpl.
  - apply String.eqb_neq. intros E.
    pose proof (CleanFacts.has_quote_clean raw) as H. congruence.
  - apply String.eqb_eq. now apply CleanFacts.clean_agrees.
Qed.

(** ** C3: which captures become nodes *)

(** C3, as stated, fails in both directions.  The text of [cap_empty]
    cleans to the empty name, none of whose characters is outside the set,
    and no node is made; the name [cafe] has a character outside the set
    and its node is made. *)
Lemma C3_ascii_set_is_not_the_filter :
  (forallb_str spec_char (clean_name (raw_name ".tf" (fst cap_empty))) = true
   /\ process_capture "main.tf" ".tf" Nx.empty cap_empty = Nx.empty)
  /\ (forallb_str spec_char (clean_name (raw_name ".py" (fst cap_cafe)))
      = false
      /\ node_get (process_capture "app.py" ".py" Nx.empty cap_cafe)
                  (get_node_id "app.py" cafe)
         = Some (Attrs (Some "definition") None (Some cafe))).
Proof. repeat split; reflexivity. Qed.

(** C3, amended: a capture in the role [name] becomes a definition node,
    with its [contains] edge, exactly when its cleaned name is not empty
    and every character of it is in [[A-Za-z0-9_.:-]] or is a word
    character beyond ASCII; otherwise the graph is left as it was.  A name
    holding a parenthesis, a quote or whitespace is never accepted. *)
Theorem C3_definition_iff_accepted_name
        (rel_path ext : string) (g : DiGraph) (cap : ts_node * string)
        (c : ascii) :
  snd cap = "name" ->
  (if accepted (clean_name (raw_name ext (fst cap)))
   then process_capture rel_path ext g cap
        = add_definition rel_path (clean_name (raw_name ext (fst cap))) g
        /\ is_definition (process_capture rel_path ext g cap)
             (get_node_id rel_path (clean_name (raw_name ext (fst cap))))
        /\ edge_get (process_capture rel_path ext g cap) rel_path
             (get_node_id rel_path (clean_name (raw_name ext (fst cap))))
           = Some "contains"
   else process_capture rel_path ext g cap = g)
  /\ accepted (clean_name (raw_name ext (fst cap)))
     = negb (String.eqb (clean_name (raw_name ext (fst cap))) "")
       && forallb_str spec_char_or_word (clean_name (raw_name ext (fst cap)))
  /\ has_char c (clean_name (raw_name ext (fst cap)))
     && (Ascii.eqb c "(" || is_quote c || isspace c)
     && accepted (clean_name (raw_name ext (fst cap))) = false.
Proof.
  intros Hn. set (name := clean_name (raw_name ext (fst cap))).
  assert (P : process_capture rel_path ext g cap
              = if accepted name then add_definition rel_path name g else g).
  { unfold process_capture. rewrite Hn. simpl. fold name.
    rewrite ValidFacts.is_valid_identifier_eq. fold (accepted name).
    now destruct (accepted name). }
  split; [|split].
  - rewrite P. destruct (accepted name); [|reflexivity].
    split; [reflexivity|]. split.
    + destruct (ValidFacts.node_get_add_definition rel_path name g)
        as (a & H & T & _). now exists a.
    + apply ValidFacts.edge_get_add_definition.
  - unfold accepted. f_equal. apply PyStrFacts.forallb_str_ext.
    intros x _. unfold spec_char_or_word.
    destruct (is_ascii x) eqn:A.
    + rewrite (ValidFacts.allowed_char_ascii x A). simpl.
      now rewrite orb_false_r.
    + clear A. destruct x as [[] [] [] [] [] [] [] []]; reflexivity.
  - destruct (has_char c name) eqn:H; [|reflexivity].
    destruct (Ascii.eqb c "(" || is_quote c || isspace c) eqn:B;
      [|reflexivity].
    simpl. unfold accepted.
    rewrite (PyStrFacts.forallb_str_false allowed_char c name H);
      [apply andb_false_r|].
    clear -B. destruct c as [[] [] [] [] [] [] [] []];
      try reflexivity; discriminate B.
Qed.

Lemma C3_definition_iff_accepted_name_witness :
  snd cap_cafe = "name"
  /\ is_definition (process_capture "app.py" ".py" Nx.empty cap_cafe)
                   (get_node_id "app.py" cafe).
Proof.
  split; [reflexivity|].
  destruct (C3_definition_iff_accepted_name "app.py" ".py" Nx.empty cap_cafe
              "("%char eq_refl) as [H _].
  exact (proj1 (proj2 H)).
Defined.

(** ** C4: the index and its leaf aliases *)

(** C4: a definition node with a dotted name is listed by the index both
    under the full name and under the last segment, so a lookup of the
    segment alone reaches it; the loop appends the node to whatever either
    key listed before. *)
Theorem C4_dotted_name_and_leaf_alias
        (g : DiGraph) (d : index) (node name : string) (attr : attrs) :
  In (node, attr) (nodes g) ->
  has_type "definition" attr = true -> a_name attr = Some name ->
  has_char "." name = true ->
  (exists l, ODict.get String.eqb (build_index g) name = Some l
             /\ In node l)
  /\ (exists l, ODict.get String.eqb (build_index g) (split_last "." name)
                = Some l
                /\ In node l)
  /\ ODict.get String.eqb (index_node d (node, attr)) name
     = Some (listed d name ++ [node])
  /\ ODict.get String.eqb (index_node d (node, attr)) (split_last "." name)
     = Some (listed d (split_last "." name) ++ [node]).
Proof.
  intros Hin Ht Hn Hd.
  destruct (IndexFacts.build_index_dotted g node name attr Hin Ht Hn Hd)
    as [H1 H2].
  destruct (SplitFacts.index_node_appends d node name attr Ht Hn Hd)
    as [H3 H4].
  repeat split; assumption.
Qed.

Lemma C4_dotted_name_and_leaf_alias_witness :
  In ("config.yaml::database.db_host", a_db_host)
     (nodes (graph (ingest w_config init)))
  /\ has_type "definition" a_db_host = true
  /\ a_name a_db_host = Some "database.db_host"
  /\ has_char "." "database.db_host" = true
  /\ ODict.get String.eqb
       (index_node d_host ("config.yaml::database.db_host", a_db_host))
       (split_last "." "database.db_host")
     = Some (listed d_host (split_last "." "database.db_host")
             ++ ["config.yaml::database.db_host"]).
Proof.
  assert (Hin : In ("config.yaml::database.db_host", a_db_host)
                   (nodes (graph (ingest w_config init))))
    by (right; right; left; reflexivity).
  split; [exact Hin|]. do 3 (split; [reflexivity|]).
  exact (proj2 (proj2 (proj2
    (C4_dotted_name_and_leaf_alias (graph (ingest w_config init)) d_host
       "config.yaml::database.db_host" "database.db_host" a_db_host
       Hin eq_refl eq_refl eq_refl)))).
Defined.

(** ** C5: the length floor and the substring test *)

(** C5, as stated, fails.  [db_host] has seven characters, is indexed to
    the definition of [main.py.yaml], and stands in the text of the other
    file [main.py], which is a readable file node and has no edge to that
    definition; the build gives it none, because the identity of the
    definition starts with [main.py]. *)
Lemma C5_long_name_found_but_not_linked :
  In "main.py" (nodes_of_type (graph (ingest w_prefix init)) "file")
  /\ read_text w_prefix "main.py" = Ok "print(settings.db_host)"
  /\ ODict.get String.eqb (build_index (graph (ingest w_prefix init)))
                "db_host"
     = Some ["main.py.yaml::database.db_host"]
  /\ String.length "db_host" = 7
  /\ contains "print(settings.db_host)" "db_host" = true
  /\ edge_get (graph (ingest w_prefix init)) "main.py.yaml"
              "main.py.yaml::database.db_host" = Some "contains"
  /\ edge_get (graph (build w_prefix init)) "main.py"
              "main.py.yaml::database.db_host" = None.
Proof. repeat split; try reflexivity. now left. Qed.

(** C5, amended: an indexed name of at most three characters never changes
    the graph, whatever text it occurs in; an indexed name of at least four
    characters that occurs in the text of a readable file node yields a
    [references] edge from that file to every node listed under the name
    whose identity does not start with the file's identity, and leaves the
    edge to a node whose identity does as it was.  Every edge the pass
    writes is a [references] edge that a name of more than three characters
    accounts for. *)
Theorem C5_length_floor_and_substring_hit
        (w : world) (g g' : DiGraph) (f content name t : string)
        (ts : list string) :
  In f (nodes_of_type g "file") ->
  read_text w f = Ok content ->
  ODict.get String.eqb (build_index g) name = Some ts ->
  contains content name = true ->
  In t ts ->
  (if (String.length name <=? 3)%nat
   then scan_name f content g' (name, ts) = g'
   else edge_get (resolve w g) f t
        = if startswith t f then edge_get g f t else Some "references")
  /\ (forall u v,
        edge_get (resolve w g) u v = edge_get g u v
        \/ (edge_get (resolve w g) u v = Some "references"
            /\ linked w (build_index g) u v)).
Proof.
  intros Hf R Hd Hc Ht. split.
  - destruct (String.length name <=? 3)%nat eqn:L.
    + apply Nat.leb_le in L. unfold scan_name.
      assert (E : (3 <? String.length name)%nat = false)
        by (apply Nat.ltb_ge; exact L).
      now rewrite E.
    + apply Nat.leb_gt in L.
      destruct (startswith t f) eqn:G.
      * destruct (ResolverFacts.resolve_adds w g f t)
          as [E|(_ & _ & K & _)]; [exact E|congruence].
      * apply (ScanFacts.resolve_hit w g f content name t ts);
          try assumption.
        apply (ODictFacts.get_In String.eqb NxFacts.string_eqb_ok).
        exact Hd.
  - intros u v.
    destruct (ResolverFacts.resolve_adds w g u v) as [E|(E & _ & L)];
      [now left|now right].
Qed.

Lemma C5_length_floor_and_substring_hit_witness :
  In "src/main.py" (nodes_of_type (graph (ingest w_config init)) "file")
  /\ read_text w_config "src/main.py" = Ok "print(settings.db_host)"
  /\ ODict.get String.eqb (build_index (graph (ingest w_config init)))
                "db_host"
     = Some ["config.yaml::database.db_host"]
  /\ contains "print(settings.db_host)" "db_host" = true
  /\ In "config.yaml::database.db_host" ["config.yaml::database.db_host"]
  /\ edge_get (resolve w_config (graph (ingest w_config init)))
              "src/main.py" "config.yaml::database.db_host"
     = Some "references".
Proof.
  assert (Hf : In "src/main.py"
                  (nodes_of_type (graph (ingest w_config init)) "file"))
    by (right; left; reflexivity).
  assert (Ht : In "config.yaml::database.db_host"
                  ["config.yaml::database.db_host"])
    by (left; reflexivity).
  split; [exact Hf|]. do 3 (split; [reflexivity|]). split; [exact Ht|].
  exact (proj1 (C5_length_floor_and_substring_hit w_config
                  (graph (ingest w_config init)) Nx.empty
                  "src/main.py" "print(settings.db_host)" "db_host"
                  "config.yaml::database.db_host"
                  ["config.yaml::database.db_host"]
                  Hf eq_refl eq_refl eq_refl Ht)).
Defined.

(** ** C6: failures stay with their file *)



(** ** C7: one [contains] edge per definition *)




(* ================================================================== *)
(** * Further properties of the code *)

(** ** Every build has the same shape *)

Module ShapeFacts.
Import PyStr Nx Builder Spec Invariants Shape.
Import PyStrFacts NxFacts ResolverFacts ExtractFacts.

Lemma In_set_cases (K V : Type) (eqb : K -> K -> bool)
      (d : ODict.t K V) (k : K) (v : V) (x : K * V) :
  In x (ODict.set eqb d k v) -> x = (k, v) \/ In x d.
Proof.
  induction d as [|[k0 v0] d IH]; simpl.
  - intros [H|[]]. now left.
  - destruct (eqb k k0); simpl.
    + intros [H|H]; [now left|now right; right].
    + intros [H|H]; [now right; left|].
      destruct (IH H); [now left|now right; right].
Qed.

Lemma has_node_true (g : DiGraph) (n : string) :
  has_node g n = true -> exists a, node_get g n = Some a.
Proof.
  unfold has_node, ODict.mem. fold (node_get g n).
  destruct (node_get g n) as [a|]; [eauto|discriminate].
Qed.

Lemma NoDup_nodes_add_node (g : DiGraph) (n : string) (a : attrs) :
  NoDup (map fst (nodes g)) -> NoDup (map fst (nodes (add_node g n a))).
Proof.
  intros H. unfold add_node. simpl.
  now apply ODictFacts.NoDup_keys_set; [apply string_eqb_ok|].
Qed.

Lemma shaped_empty : shaped Nx.empty.
Proof.
  split; try constructor; intros; discriminate.
Qed.

Lemma file_attrs_ok (rel : string) (old : attrs) :
  lookup_config (OsPath.basename rel) <> None ->
  node_ok rel (update_attrs old
                 (file_attrs (OsPath.splitext_ext (OsPath.basename rel)))).
Proof. intros H. left. repeat split. exact H. Qed.

Lemma shaped_add_file (g : DiGraph) (rel : string) :
  shaped g -> lookup_config (OsPath.basename rel) <> None ->
  shaped (add_node g rel
            (file_attrs (OsPath.splitext_ext (OsPath.basename rel)))).
Proof.
  intros S R. split.
  - apply NoDup_nodes_add_node, (sh_node_keys S).
  - exact (sh_edge_keys S).
  - intros n a H. destruct (String.eqb n rel) eqn:E.
    + apply String.eqb_eq in E. subst n.
      rewrite node_get_add_node_same in H. injection H as <-.
      now apply file_attrs_ok.
    + apply String.eqb_neq in E.
      rewrite node_get_add_node_other in H by exact E.
      exact (sh_nodes S _ _ H).
  - intros u v r H.
    destruct (sh_edges S u v r H) as (Hr & Hu & a & Ha & Na).
    split; [exact Hr|]. split; [now apply has_node_add_node|].
    destruct (String.eqb v rel) eqn:E.
    + apply String.eqb_eq in E. subst v.
      rewrite node_get_add_node_same, Ha. eexists. split; [reflexivity|].
      simpl. exact Na.
    + apply String.eqb_neq in E.
      rewrite node_get_add_node_other by exact E. eauto.
Qed.

Lemma has_node_add_definition (rel name m : string) (g : DiGraph) :
  has_node g rel = true -> has_node g m = true ->
  has_node (add_definition rel name g) m = true.
Proof.
  intros Hr Hm. unfold has_node, ODict.mem.
  rewrite nodes_add_definition by exact Hr.
  now apply (has_node_add_node g).
Qed.

Lemma named_add_definition (rel name v : string) (g : DiGraph) :
  has_node g rel = true ->
  (exists a, node_get g v = Some a /\ a_name a <> None) ->
  exists a, node_get (add_definition rel name g) v = Some a
            /\ a_name a <> None.
Proof.
  intros Hr (a & Ha & Na).
  destruct (String.eqb v (get_node_id rel name)) eqn:E.
  - apply String.eqb_eq in E. subst v.
    rewrite node_get_add_definition_same by exact Hr.
    eexists. split; [reflexivity|]. discriminate.
  - apply String.eqb_neq in E.
    rewrite node_get_add_definition_other by assumption. eauto.
Qed.

Lemma shaped_add_definition (rel name : string) (g : DiGraph) :
  shaped g -> has_node g rel = true -> shaped (add_definition rel name g).
Proof.
  intros S Hr. split.
  - rewrite nodes_add_definition by exact Hr.
    apply NoDup_nodes_add_node, (sh_node_keys S).
  - unfold add_definition. apply NoDup_edges_add_edge. exact (sh_edge_keys S).
  - intros n a H. destruct (String.eqb n (get_node_id rel name)) eqn:E.
    + apply String.eqb_eq in E. subst n.
      rewrite node_get_add_definition_same in H by exact Hr.
      injection H as <-. right. split; [reflexivity|discriminate].
    + apply String.eqb_neq in E.
      rewrite node_get_add_definition_other in H by assumption.
      exact (sh_nodes S _ _ H).
  - intros u v r H.
    destruct (edge_get_add_definition_cases rel name u v g)
      as [(-> & -> & K)|(_ & K)]; rewrite K in H.
    + injection H as <-. split; [now left|].
      split; [now apply has_node_add_definition|].
      rewrite node_get_add_definition_same by exact Hr.
      eexists. split; [reflexivity|discriminate].
    + destruct (sh_edges S u v r H) as (Hk & Hu & Hv).
      split; [exact Hk|]. split; [now apply has_node_add_definition|].
      now apply named_add_definition.
Qed.

Lemma shaped_captures (rel ext : string) (caps : list (ts_node * string))
      (g : DiGraph) :
  shaped g -> has_node g rel = true ->
  shaped (fold_left (process_capture rel ext) caps g)
  /\ has_node (fold_left (process_capture rel ext) caps g) rel = true.
Proof.
  intros S Hr.
  apply (fold_left_inv _ _ (fun x => shaped x /\ has_node x rel = true));
    [|now split].
  intros x cap _ [Sx Hx]. unfold process_capture.
  destruct (String.eqb (snd cap) "name"); [|now split].
  destruct (is_valid_identifier _); simpl; [|now split].
  split; [now apply shaped_add_definition|].
  now apply has_node_add_definition.
Qed.

Lemma shaped_parse_file (w : world) (rel : string) (b : builder) :
  shaped (graph b) -> shaped (graph (parse_file w rel b)).
Proof.
  intros S. unfold parse_file.
  destruct (lookup_config (OsPath.basename rel)) as [e|] eqn:L; [|exact S].
  assert (S' : shaped (add_node (graph b) rel
                 (file_attrs (OsPath.splitext_ext (OsPath.basename rel))))).
  { apply shaped_add_file; [exact S|]. rewrite L. discriminate. }
  destruct (load_captures w rel e) as [caps|x]; simpl; [|exact S'].
  apply shaped_captures; [exact S'|]. apply has_node_add_node_same.
Qed.

Lemma shaped_ingest (w : world) (b : builder) :
  shaped (graph b) -> shaped (graph (ingest w b)).
Proof.
  intros S. unfold ingest.
  apply (fold_left_inv _ _ (fun x => shaped (graph x))); [|exact S].
  intros x [rel_dir files] _ Sx. unfold scan_dir.
  destruct (ignored (root_of w rel_dir)); [exact Sx|].
  apply (fold_left_inv _ _ (fun x => shaped (graph x))); [|exact Sx].
  intros y file _ Sy. now apply shaped_parse_file.
Qed.

(** What the index lists are named definition nodes of the graph. *)
Lemma index_targets_named (g : DiGraph) (k t : string) (l : list string) :
  In (k, l) (build_index g) -> In t l ->
  exists a, In (t, a) (nodes g)
            /\ has_type "definition" a = true /\ a_name a <> None.
Proof.
  unfold build_index. revert k t l.
  apply (fold_left_inv _ _
           (fun d => forall k t l, In (k, l) d -> In t l ->
              exists a, In (t, a) (nodes g)
                        /\ has_type "definition" a = true
                        /\ a_name a <> None)).
  - intros d [node attr] Hin Hd. unfold index_node.
    destruct (has_type "definition" attr) eqn:T; [|exact Hd].
    destruct (a_name attr) as [name|] eqn:N; [|exact Hd].
    destruct (String.eqb name ""); [exact Hd|].
    assert (A : forall d0 key,
               (forall k t l, In (k, l) d0 -> In t l ->
                  exists a, In (t, a) (nodes g)
                            /\ has_type "definition" a = true
                            /\ a_name a <> None) ->
               forall k t l, In (k, l) (index_append d0 key node) ->
                 In t l ->
                 exists a, In (t, a) (nodes g)
                           /\ has_type "definition" a = true
                           /\ a_name a <> None).
    { intros d0 key H0 k t l Hk Ht. unfold index_append in Hk.
      apply In_set_cases in Hk as [E|Hk]; [|eauto].
      injection E as -> ->. apply in_app_or in Ht as [Ht|[<-|[]]].
      - destruct (ODict.get String.eqb d0 key) as [l0|] eqn:G;
          [|contradiction].
        apply (ODictFacts.get_In String.eqb string_eqb_ok) in G. eauto.
      - exists attr. rewrite N. repeat split; try assumption. discriminate. }
    destruct (has_char "." name); [apply A|]; apply A; exact Hd.
  - intros k t l [].
Qed.

Lemma shaped_resolve (w : world) (g : DiGraph) :
  shaped g -> shaped (resolve w g).
Proof.
  intros S. pose proof (resolve_adds w g) as A. split.
  - rewrite resolve_nodes. exact (sh_node_keys S).
  - apply BuildFacts.NoDup_edges_resolve, (sh_edge_keys S).
  - intros n a H. rewrite BuildFacts.node_get_resolve in H.
    exact (sh_nodes S _ _ H).
  - intros u v r H.
    assert (Hn : forall m, has_node (resolve w g) m = has_node g m).
    { intros m. unfold has_node. now rewrite resolve_nodes. }
    rewrite Hn.
    destruct (A u v) as [K|(K & Hu & _ & content & name & ts & _ & Hd
                           & _ & _ & Hv)].
    + rewrite K in H.
      destruct (sh_edges S u v r H) as (Hk & Hu & a & Ha & Na).
      split; [exact Hk|]. split; [exact Hu|].
      exists a. now rewrite BuildFacts.node_get_resolve.
    + rewrite K in H. injection H as <-. split; [now right|]. split.
      * apply nodes_of_type_In in Hu as (a & Hu & _).
        eapply has_node_In; eauto.
      * destruct (index_targets_named g name v ts Hd Hv) as (a & Ha & _ & Na).
        exists a. split; [|exact Na].
        rewrite BuildFacts.node_get_resolve.
        apply (ODictFacts.NoDup_In_get String.eqb string_eqb_ok);
          [exact (sh_node_keys S)|exact Ha].
Qed.

Lemma shaped_build (w : world) : shaped (graph (build w init)).
Proof.
  unfold build, build_cross_reference. simpl.
  apply shaped_resolve, shaped_ingest, shaped_empty.
Qed.

End ShapeFacts.

(** ** Strings again *)

Module TextFacts.
Import PyStr Nx Builder Spec Exporters PyStrFacts.

Lemma has_char_replace_same (c r : ascii) (s : string) :
  c <> r -> has_char c (replace_char c r s) = false.
Proof.
  intros N. induction s as [|d s IH]; simpl; [reflexivity|].
  rewrite IH, orb_false_r.
  destruct (Ascii.eqb d c) eqn:E.
  - apply Ascii.eqb_neq. congruence.
  - exact E.
Qed.

Lemma has_char_replace_other (c x r : ascii) (s : string) :
  c <> r -> has_char c s = false -> has_char c (replace_char x r s) = false.
Proof.
  intros N. induction s as [|d s IH]; simpl; [reflexivity|].
  intros H. apply orb_false_iff in H as [Hd Hs]. rewrite (IH Hs), orb_false_r.
  destruct (Ascii.eqb d x); [|exact Hd].
  apply Ascii.eqb_neq. congruence.
Qed.

Lemma length_replace (c r : ascii) (s : string) :
  String.length (replace_char c r s) = String.length s.
Proof. induction s as [|d s IH]; simpl; congruence. Qed.

Lemma replace_absent (c r : ascii) (s : string) :
  has_char c s = false -> replace_char c r s = s.
Proof.
  induction s as [|d s IH]; simpl; [reflexivity|].
  intros H. apply orb_false_iff in H as [Hd Hs]. now rewrite Hd, IH.
Qed.

Lemma contains_app_r (s t p : string) :
  contains s p = true -> contains (s ++ t) p = true.
Proof.
  induction s as [|c s IH]; simpl.
  - rewrite orb_false_r. intros H.
    destruct p as [|x p]; [|simpl in H; discriminate H].
    destruct t; reflexivity.
  - intros H. apply orb_true_iff in H as [H|H].
    + apply startswith_inv in H as [r E].
      change (String c s ++ t)%string with (String c (s ++ t)).
      assert (E' : (String c s ++ t = p ++ (r ++ t))%string)
        by (rewrite E; apply app_assoc_str).
      change (startswith (String c s ++ t) p
              || contains (s ++ t) p = true).
      rewrite E', startswith_refl_app. reflexivity.
    + rewrite (IH H). apply orb_true_r.
Qed.

Lemma split_cons_sep (c : ascii) (s : string) :
  split c (String c s) = EmptyString :: split c s.
Proof. simpl. now rewrite Ascii.eqb_refl. Qed.

Lemma last_cons_nonempty (A : Type) (x d : A) (l : list A) :
  l <> [] -> last (x :: l) d = last l d.
Proof. destruct l; [congruence|reflexivity]. Qed.

(** What precedes a separator does not matter to the last piece. *)
Lemma split_last_app (c : ascii) (a b : string) :
  split_last c (a ++ String c b) = split_last c b.
Proof.
  unfold split_last. induction a as [|d a IH].
  - simpl append. rewrite split_cons_sep.
    apply last_cons_nonempty, SplitFacts.split_nonempty.
  - change (String d a ++ String c b)%string
      with (String d (a ++ String c b)).
    simpl split. destruct (Ascii.eqb d c).
    + rewrite last_cons_nonempty by apply SplitFacts.split_nonempty.
      exact IH.
    + destruct (split c (a ++ String c b)) as [|w ws] eqn:E.
      * exfalso. now apply (SplitFacts.split_nonempty c (a ++ String c b)).
      * destruct ws as [|w' ws'].
        -- exfalso. simpl in IH.
           assert (H : has_char c w = false).
           { apply (SplitFacts.split_no_sep c (a ++ String c b)).
             rewrite E. now left. }
           assert (J : (a ++ String c b)%string = w).
           { clear IH H. revert w E. generalize (a ++ String c b)%string.
             intros s. induction s as [|y s IHs]; intros w E; simpl in E.
             - now injection E as <-.
             - destruct (Ascii.eqb y c).
               { injection E as _ E'. exfalso.
                 now apply (SplitFacts.split_nonempty c s). }
               destruct (split c s) as [|v vs] eqn:Es.
               + exfalso. now apply (SplitFacts.split_nonempty c s).
               + injection E as <- ->. f_equal. now apply IHs. }
           rewrite <- J, has_char_app in H. simpl in H.
           rewrite Ascii.eqb_refl in H. simpl in H.
           now rewrite orb_true_r in H.
        -- exact IH.
Qed.

Lemma join_snoc (sep x : string) (l : list string) :
  PyStr.join sep (l ++ [x]) = x
  \/ exists p, PyStr.join sep (l ++ [x]) = (p ++ sep ++ x)%string.
Proof.
  induction l as [|y l IH]; [now left|]. right.
  change ((y :: l) ++ [x]) with (y :: (l ++ [x])).
  destruct (l ++ [x]) as [|z r] eqn:E.
  - now destruct l.
  - change (PyStr.join sep (y :: z :: r))
      with (y ++ sep ++ PyStr.join sep (z :: r))%string.
    destruct IH as [-> | [p ->]].
    + now exists y.
    + exists (y ++ sep ++ p)%string.
      now rewrite !app_assoc_str.
Qed.

End TextFacts.

(** ** Cleaning twice *)

Module StripFacts.
Import PyStr Nx Builder Spec PyStrFacts.

Lemma lstrip_fixed (p : ascii -> bool) (s : string) :
  lstrip_chars p (lstrip_chars p s) = lstrip_chars p s.
Proof.
  induction s as [|c s IH]; simpl; [reflexivity|].
  destruct (p c) eqn:E; [exact IH|]. simpl. now rewrite E.
Qed.

Lemma rstrip_fixed (p : ascii -> bool) (s : string) :
  rstrip_chars p (rstrip_chars p s) = rstrip_chars p s.
Proof.
  induction s as [|c s IH]; simpl; [reflexivity|].
  destruct (rstrip_chars p s) as [|x r] eqn:R.
  - destruct (p c) eqn:E; simpl; [reflexivity|]. now rewrite E.
  - change (rstrip_chars p (String c (String x r)))
      with (match rstrip_chars p (String x r) with
            | EmptyString => if p c then EmptyString else String c EmptyString
            | String y t => String c (String y t)
            end).
    now rewrite IH.
Qed.

(** Stripping on the right keeps a first character that stays. *)
Lemma lstrip_rstrip (p : ascii -> bool) (s : string) :
  lstrip_chars p s = s ->
  lstrip_chars p (rstrip_chars p s) = rstrip_chars p s.
Proof.
  destruct s as [|c s]; [reflexivity|]. simpl.
  destruct (p c) eqn:E.
  - intros H. exfalso.
    assert (L : String.length (lstrip_chars p s) <= String.length s).
    { clear. induction s as [|d s IH]; simpl; [lia|].
      destruct (p d); simpl; lia. }
    rewrite H in L. simpl in L. lia.
  - intros _. destruct (rstrip_chars p s); simpl; now rewrite E.
Qed.

Lemma strip_fixed (p : ascii -> bool) (s : string) :
  strip_chars p (strip_chars p s) = strip_chars p s.
Proof.
  unfold strip_chars.
  rewrite (lstrip_rstrip p (lstrip_chars p s) (lstrip_fixed p s)).
  apply rstrip_fixed.
Qed.

End StripFacts.

(** ** Properties of the extraction helpers *)

Import PyStr Nx Builder Spec Invariants Shape Exporters Scenarios.

(** X1: after the alias loop of [__init__], a file name has an entry in
    the registry exactly when it is [Dockerfile] or its extension is one of
    [.py], [.yaml], [.yml], [.tf]; the entry is always a grammar, never an
    alias record; and a [.yml] name gets the very entry of [.yaml]. *)
Theorem X1_registry_after_alias_loop (filename : string) :
  (lookup_config filename <> None
   <-> filename = "Dockerfile"
       \/ In (OsPath.splitext_ext filename) [".py"; ".yaml"; ".yml"; ".tf"])
  /\ (forall e, lookup_config filename = Some e -> exists c, e = Grammar c)
  /\ (OsPath.splitext_ext filename = ".yml" ->
      filename <> "Dockerfile" ->
      lookup_config filename = ODict.get String.eqb parsers ".yaml").
Proof.
  unfold lookup_config.
  destruct (String.eqb filename "Dockerfile") eqn:D.
  - apply String.eqb_eq in D. subst filename.
    split; [|split].
    + split; [now left|discriminate].
    + intros e [= <-]. eauto.
    + congruence.
  - apply String.eqb_neq in D.
    set (ext := OsPath.splitext_ext filename).
    assert (K : ODict.get String.eqb parsers ext
                = if String.eqb ext ".py"
                  then ODict.get String.eqb parsers ".py"
                  else if String.eqb ext ".yaml"
                  then ODict.get String.eqb parsers ".yaml"
                  else if String.eqb ext ".yml"
                  then ODict.get String.eqb parsers ".yaml"
                  else if String.eqb ext "Dockerfile"
                  then ODict.get String.eqb parsers "Dockerfile"
                  else if String.eqb ext ".tf"
                  then ODict.get String.eqb parsers ".tf"
                  else None).
    { let v := eval vm_compute in parsers in change parsers with v.
      simpl.
      destruct (String.eqb ext ".py"); [reflexivity|].
      destruct (String.eqb ext ".yaml"); [reflexivity|].
      destruct (String.eqb ext ".yml"); [reflexivity|].
      destruct (String.eqb ext "Dockerfile"); [reflexivity|].
      destruct (String.eqb ext ".tf"); reflexivity. }
    assert (ND : String.eqb ext "Dockerfile" = false).
    { unfold ext, OsPath.splitext_ext.
      destruct (existsb _ _); reflexivity. }
    rewrite K, ND. clear K.
    destruct (String.eqb ext ".py") eqn:E1;
      [apply String.eqb_eq in E1|apply String.eqb_neq in E1].
    { split; [|split].
      - split; [intros _; right; rewrite E1; now left|discriminate].
      - intros e [= <-]. eauto.
      - rewrite E1. discriminate. }
    destruct (String.eqb ext ".yaml") eqn:E2;
      [apply String.eqb_eq in E2|apply String.eqb_neq in E2].
    { split; [|split].
      - split; [intros _; right; rewrite E2; right; now left|discriminate].
      - intros e [= <-]. eauto.
      - rewrite E2. discriminate. }
    destruct (String.eqb ext ".yml") eqn:E3;
      [apply String.eqb_eq in E3|apply String.eqb_neq in E3].
    { split; [|split].
      - split; [intros _; right; rewrite E3; right; right; now left
               |discriminate].
      - intros e [= <-]. eauto.
      - reflexivity. }
    destruct (String.eqb ext ".tf") eqn:E4;
      [apply String.eqb_eq in E4|apply String.eqb_neq in E4].
    { split; [|split].
      - split; [intros _; right; rewrite E4; right; right; right; now left
               |discriminate].
      - intros e [= <-]. eauto.
      - rewrite E4. discriminate. }
    split; [|split].
    + split; [congruence|].
      intros [H|[H|[H|[H|[H|[]]]]]]; congruence.
    + discriminate.
    + congruence.
Qed.

Lemma X1_registry_after_alias_loop_witness :
  OsPath.splitext_ext "settings.yml" = ".yml"
  /\ "settings.yml" <> "Dockerfile"
  /\ lookup_config "settings.yml" = ODict.get String.eqb parsers ".yaml".
Proof.
  split; [reflexivity|]. split; [discriminate|].
  apply (proj2 (proj2 (X1_registry_after_alias_loop "settings.yml")));
    [reflexivity|discriminate].
Defined.

(** X2: cleaning a name twice is cleaning it once, so the second cleaning
    inside [get_node_id] changes nothing: the identity of the node made for
    a capture is the file's path, [::], and exactly the name stored in the
    node's [name] attribute. *)
Theorem X2_node_identity_ends_with_stored_name
        (rel_path raw : string) :
  clean_name (clean_name raw) = clean_name raw
  /\ get_node_id rel_path (clean_name raw)
     = (rel_path ++ "::" ++ clean_name raw)%string.
Proof.
  assert (U : unquote (clean_name raw) = clean_name raw)
    by apply BuildFacts.unquote_clean, CleanFacts.has_quote_clean.
  split.
  - unfold clean_name at 1. rewrite U. unfold clean_name, strip.
    apply StripFacts.strip_fixed.
  - unfold get_node_id. now rewrite U.
Qed.

(** X3: whatever keys enclose a YAML key, the last dot-segment of its
    qualified path is the last dot-segment of the key's own text; this is
    what lets the leaf alias of the index be the bare key. *)
Theorem X3_leaf_of_qualified_path (node : ts_node) :
  split_last "." (get_yaml_full_path node)
  = split_last "." (node_text node).
Proof.
  rewrite YamlFacts.get_yaml_full_path_spec. unfold qualified_path.
  destruct (TextFacts.join_snoc "." (node_text node)
              (rev (keys_of node (ancestors node)))) as [->|[p ->]];
    [reflexivity|].
  apply (TextFacts.split_last_app "."%char p (node_text node)).
Qed.

(** X4: the ignore test of [build] is a substring test on the whole
    directory path, the repository path included: when [repo_path] itself
    contains [.git], [venv] or [__pycache__], no file is ever parsed and
    the build of a fresh builder is empty. *)
Theorem X4_ignored_repo_path_builds_nothing (w : world) (b : builder) :
  ignored (repo_path w) = true ->
  ingest w b = b /\ build w init = init.
Proof.
  intros Ig.
  assert (R : forall d, ignored (root_of w d) = true).
  { intros d. unfold root_of. destruct (String.eqb d ""); [exact Ig|].
    unfold OsPath.join.
    destruct (String.eqb (repo_path w) "") eqn:E.
    - apply String.eqb_eq in E. rewrite E in Ig. discriminate Ig.
    - unfold ignored in *.
      apply orb_true_iff in Ig as [Ig|Ig];
        [apply orb_true_iff in Ig as [Ig|Ig]|];
        destruct (String.eqb (split_last "/" (repo_path w)) "");
        rewrite (TextFacts.contains_app_r _ _ _ Ig);
        rewrite ?orb_true_r; reflexivity. }
  assert (I : forall b0, ingest w b0 = b0).
  { intros b0. unfold ingest. generalize (walk w). intros l.
    induction l as [|[d files] l IH]; [reflexivity|].
    simpl. now rewrite R. }
  split; [apply I|]. unfold build. rewrite I. reflexivity.
Qed.

Lemma X4_ignored_repo_path_builds_nothing_witness :
  ignored (repo_path (World "/home/dev/venvs/repo" (read_text w_config)
                            (ts_captures w_config) (walk w_config))) = true
  /\ build (World "/home/dev/venvs/repo" (read_text w_config)
                  (ts_captures w_config) (walk w_config)) init = init.
Proof.
  split; [reflexivity|].
  apply (X4_ignored_repo_path_builds_nothing
           (World "/home/dev/venvs/repo" (read_text w_config)
                  (ts_captures w_config) (walk w_config)) init).
  reflexivity.
Defined.

(** X5: [clean_id] keeps the length of its argument, leaves none of the
    five characters it replaces, and applied twice gives what it gives
    once. *)
Theorem X5_clean_id_sanitizes (text : string) (c : ascii) :
  In c ["/"; "."; ":"; "-"; " "]%char ->
  has_char c (clean_id text) = false
  /\ String.length (clean_id text) = String.length text
  /\ clean_id (clean_id text) = clean_id text.
Proof.
  intros Hc.
  assert (A : forall x, In x ["/"; "."; ":"; "-"; " "]%char ->
                        has_char x (clean_id text) = false).
  { intros x Hx. unfold clean_id.
    destruct Hx as [<-|[<-|[<-|[<-|[<-|[]]]]]].
    - do 4 (apply TextFacts.has_char_replace_other; [discriminate|]).
      apply TextFacts.has_char_replace_same. discriminate.
    - do 3 (apply TextFacts.has_char_replace_other; [discriminate|]).
      apply TextFacts.has_char_replace_same. discriminate.
    - do 2 (apply TextFacts.has_char_replace_other; [discriminate|]).
      apply TextFacts.has_char_replace_same. discriminate.
    - apply TextFacts.has_char_replace_other; [discriminate|].
      apply TextFacts.has_char_replace_same. discriminate.
    - apply TextFacts.has_char_replace_same. discriminate. }
  split; [now apply A|]. split.
  - unfold clean_id. now rewrite !TextFacts.length_replace.
  - unfold clean_id at 1.
    rewrite (TextFacts.replace_absent "/"%char) by (apply A; simpl; tauto).
    rewrite (TextFacts.replace_absent "."%char) by (apply A; simpl; tauto).
    rewrite (TextFacts.replace_absent ":"%char) by (apply A; simpl; tauto).
    rewrite (TextFacts.replace_absent "-"%char) by (apply A; simpl; tauto).
    rewrite (TextFacts.replace_absent " "%char) by (apply A; simpl; tauto).
    reflexivity.
Qed.

Lemma X5_clean_id_sanitizes_witness :
  In "."%char ["/"; "."; ":"; "-"; " "]%char
  /\ has_char "." (clean_id "src/main.py::run-all") = false.
Proof.
  assert (H : In "."%char ["/"; "."; ":"; "-"; " "]%char)
    by (right; left; reflexivity).
  split; [exact H|].
  exact (proj1 (X5_clean_id_sanitizes "src/main.py::run-all" "."%char H)).
Defined.

(** ** The edges of a build *)

Module EdgeFacts.
Import NxFacts ResolverFacts ExtractFacts ShapeFacts.

Lemma only_contains_add_definition (rel name : string) (g : DiGraph) :
  only_contains g -> only_contains (add_definition rel name g).
Proof.
  intros H u v r E.
  destruct (edge_get_add_definition_cases rel name u v g)
    as [(-> & -> & K)|(_ & K)]; rewrite K in E.
  - injection E as <-. split; [reflexivity|]. now exists (unquote name).
  - exact (H u v r E).
Qed.

Lemma only_contains_parse_file (w : world) (rel : string) (b : builder) :
  only_contains (graph b) -> only_contains (graph (parse_file w rel b)).
Proof.
  intros H. unfold parse_file.
  destruct (lookup_config (OsPath.basename rel)) as [e|]; [|exact H].
  destruct (load_captures w rel e) as [caps|x]; simpl; [|exact H].
  apply (fold_left_inv _ _ only_contains); [|exact H].
  intros x cap _ Hx. unfold process_capture.
  destruct (String.eqb (snd cap) "name"); [|exact Hx].
  destruct (is_valid_identifier _); simpl; [|exact Hx].
  now apply only_contains_add_definition.
Qed.

Lemma only_contains_ingest (w : world) :
  only_contains (graph (ingest w init)).
Proof.
  unfold ingest.
  apply (fold_left_inv _ _ (fun x => only_contains (graph x))).
  - intros x [rel_dir files] _ Hx. unfold scan_dir.
    destruct (ignored (root_of w rel_dir)); [exact Hx|].
    apply (fold_left_inv _ _ (fun x => only_contains (graph x)));
      [|exact Hx].
    intros y file _ Hy. now apply only_contains_parse_file.
  - intros u v r E. discriminate E.
Qed.

Lemma has_type_eq (t : string) (a : attrs) :
  has_type t a = true -> a_type a = Some t.
Proof.
  unfold has_type. destruct (a_type a) as [t'|]; [|discriminate].
  intros H. apply String.eqb_eq in H. now subst.
Qed.

End EdgeFacts.

(** X6: in the graph of every build, a node is either a file node, whose
    [lang] attribute is the extension of its base name ([docker] when that
    is empty) and whose base name has an entry in the registry, or a
    definition node with a [name] attribute. *)
Theorem X6_nodes_of_a_build (w : world) (n : string) (a : attrs) :
  node_get (graph (build w init)) n = Some a ->
  (a_type a = Some "file" /\ a_lang a = Some (lang_of n)
   /\ lookup_config (OsPath.basename n) <> None)
  \/ (a_type a = Some "definition" /\ a_name a <> None).
Proof.
  intros H. exact (sh_nodes (ShapeFacts.shaped_build w) n a H).
Qed.

Lemma X6_nodes_of_a_build_witness :
  node_get (graph (build w_config init)) "src/main.py"
  = Some (Attrs (Some "file") (Some ".py") None)
  /\ ((a_type (Attrs (Some "file") (Some ".py") None) = Some "file"
       /\ a_lang (Attrs (Some "file") (Some ".py") None)
          = Some (lang_of "src/main.py")
       /\ lookup_config (OsPath.basename "src/main.py") <> None)
      \/ (a_type (Attrs (Some "file") (Some ".py") None) = Some "definition"
          /\ a_name (Attrs (Some "file") (Some ".py") None) <> None)).
Proof.
  split; [reflexivity|].
  exact (X6_nodes_of_a_build w_config "src/main.py"
           (Attrs (Some "file") (Some ".py") None) eq_refl).
Defined.

(** X7: in the graph of every build, both ends of an edge are nodes, and
    an edge is either a [contains] edge into a node named after its source
    ([source::name]), or a [references] edge from a file node to a
    definition node whose identity does not start with the file's, written
    because a name of more than three characters that the index maps to
    the definition occurs in the file's text. *)
Theorem X7_edges_of_a_build (w : world) (u v r : string) :
  edge_get (graph (build w init)) u v = Some r ->
  has_node (graph (build w init)) u = true
  /\ has_node (graph (build w init)) v = true
  /\ ((r = "contains" /\ exists name, v = (u ++ "::" ++ name)%string)
      \/ (r = "references"
          /\ is_file (graph (build w init)) u
          /\ is_definition (graph (build w init)) v
          /\ linked w (build_index (graph (ingest w init))) u v)).
Proof.
  intros H.
  pose proof (ShapeFacts.shaped_build w) as S.
  destruct (sh_edges S u v r H) as (_ & Hu & a & Ha & _).
  split; [exact Hu|]. split; [eapply NxFacts.has_node_get; eauto|].
  pose proof (ShapeFacts.shaped_ingest w init ShapeFacts.shaped_empty) as Si.
  unfold build, build_cross_reference in *. simpl in *.
  destruct (ResolverFacts.resolve_adds w (graph (ingest w init)) u v)
    as [K|(K & Hf & L)].
  - left. rewrite K in H.
    exact (EdgeFacts.only_contains_ingest w u v r H).
  - right. rewrite K in H. injection H as <-.
    split; [reflexivity|]. split; [|split; [|exact L]].
    + apply ResolverFacts.nodes_of_type_In in Hf as (x & Hx & Tx).
      exists x. split; [|now apply EdgeFacts.has_type_eq].
      rewrite BuildFacts.node_get_resolve.
      apply (ODictFacts.NoDup_In_get String.eqb NxFacts.string_eqb_ok);
        [exact (sh_node_keys Si)|exact Hx].
    + destruct L as (_ & content & name & ts & _ & Hd & _ & _ & Hv).
      destruct (ShapeFacts.index_targets_named _ name v ts Hd Hv)
        as (x & Hx & Tx & _).
      exists x. split; [|now apply EdgeFacts.has_type_eq].
      rewrite BuildFacts.node_get_resolve.
      apply (ODictFacts.NoDup_In_get String.eqb NxFacts.string_eqb_ok);
        [exact (sh_node_keys Si)|exact Hx].
Qed.

Lemma X7_edges_of_a_build_witness :
  edge_get (graph (build w_config init)) "src/main.py"
           "config.yaml::database.db_host" = Some "references"
  /\ is_definition (graph (build w_config init))
                   "config.yaml::database.db_host".
Proof.
  split; [reflexivity|].
  destruct (X7_edges_of_a_build w_config "src/main.py"
              "config.yaml::database.db_host" "references" eq_refl)
    as (_ & _ & [(E & _)|(_ & _ & D & _)]); [discriminate E|exact D].
Defined.

(** ** The exporters on a built graph *)

Module ExportFacts.
Import NxFacts ShapeFacts.

Lemma map_result_ok (A B : Type) (f : A -> result B) (l : list A) :
  (forall x, In x l -> exists y, f x = Ok y) ->
  exists ys, map_result f l = Ok ys.
Proof.
  induction l as [|x l IH]; intros H; simpl; [eauto|].
  destruct (H x (or_introl eq_refl)) as [y ->].
  destruct IH as [ys ->]; [intros z Hz; apply H; now right|]. eauto.
Qed.

Lemma map_result_In (A B : Type) (f : A -> result B) (l : list A)
      (ys : list B) (y : B) :
  map_result f l = Ok ys -> In y ys -> exists x, In x l /\ f x = Ok y.
Proof.
  revert ys. induction l as [|x l IH]; intros ys H Hy; simpl in H.
  - injection H as <-. contradiction.
  - destruct (f x) as [y0|e] eqn:F; [|discriminate].
    destruct (map_result f l) as [ys0|e]; [|discriminate].
    injection H as <-. destruct Hy as [<-|Hy].
    + exists x. split; [now left|exact F].
    + destruct (IH ys0 eq_refl Hy) as (x' & Hx' & F'). exists x'.
      split; [now right|exact F'].
Qed.

Lemma map_result_map (A B : Type) (f : A -> result B) (h : B -> A)
      (l : list A) (ys : list B) :
  (forall x y, f x = Ok y -> h y = x) ->
  map_result f l = Ok ys -> map h ys = l.
Proof.
  intros Hh. revert ys. induction l as [|x l IH]; intros ys H; simpl in H.
  - now injection H as <-.
  - destruct (f x) as [y0|e] eqn:F; [|discriminate].
    destruct (map_result f l) as [ys0|e]; [|discriminate].
    injection H as <-. simpl. f_equal; [now apply Hh|now apply IH].
Qed.

Lemma out_edges_In (g : DiGraph) (u r v : string) :
  In v (out_edges g u r) -> In ((u, v), r) (edges g).
Proof.
  unfold out_edges. intros H.
  apply in_map_iff in H as ([[u' v'] r'] & E & H). simpl in E. subst v'.
  apply filter_In in H as [H C]. simpl in C.
  apply andb_true_iff in C as [Cu Cr].
  apply String.eqb_eq in Cu, Cr. now subst.
Qed.

(** In a shaped graph the target of every listed edge is a named node. *)
Lemma out_edges_named (g : DiGraph) (u r v : string) :
  shaped g -> In v (out_edges g u r) ->
  exists a, node_get g v = Some a /\ a_name a <> None.
Proof.
  intros S H. apply out_edges_In in H.
  apply (ODictFacts.NoDup_In_get edge_eqb edge_eqb_ok) in H;
    [|exact (sh_edge_keys S)].
  destruct (sh_edges S u v r H) as (_ & _ & K). exact K.
Qed.

Lemma name_of_ok (g : DiGraph) (u r v : string) :
  shaped g -> In v (out_edges g u r) -> exists name, name_of g v = Ok name.
Proof.
  intros S H. destruct (out_edges_named g u r v S H) as (a & Ha & Na).
  unfold name_of. rewrite Ha.
  destruct (a_name a) as [name|]; [eauto|congruence].
Qed.

Lemma ref_name_ok (g : DiGraph) (u r v : string) :
  shaped g -> In v (out_edges g u r) -> exists name, ref_name g v = Ok name.
Proof.
  intros S H. destruct (out_edges_named g u r v S H) as (a & Ha & _).
  unfold ref_name. rewrite Ha. eauto.
Qed.

Lemma unless_empty_not_nil (l : list string) : unless_empty l <> Some [].
Proof. destruct l; discriminate. Qed.

Lemma yaml_entry_ok (w : world) (inc : bool) (g : DiGraph) (f : string) :
  shaped g -> exists e, yaml_entry w inc g f = Ok e.
Proof.
  intros S. unfold yaml_entry.
  destruct (map_result_ok _ _ (name_of g) (out_edges g f "contains"))
    as [ds ->]; [intros v Hv; eapply name_of_ok; eauto|].
  destruct (map_result_ok _ _ (ref_name g) (out_edges g f "references"))
    as [rs ->]; [intros v Hv; eapply ref_name_ok; eauto|].
  eauto.
Qed.

Lemma yaml_entry_fields (w : world) (inc : bool) (g : DiGraph) (f : string)
      (e : file_entry) :
  yaml_entry w inc g f = Ok e ->
  fe_path e = f /\ fe_definitions e <> Some []
  /\ fe_references_to e <> Some [].
Proof.
  unfold yaml_entry.
  destruct (map_result (name_of g) _) as [ds|x]; [|discriminate].
  destruct (map_result (ref_name g) _) as [rs|x]; [|discriminate].
  intros [= <-]. simpl. repeat split; apply unless_empty_not_nil.
Qed.

Lemma mermaid_file_ok (g : DiGraph) (f : string) :
  shaped g -> exists ls, mermaid_file g f = Ok ls.
Proof.
  intros S. unfold mermaid_file.
  destruct (map_result_ok _ _
              (mermaid_child g (clean_id f) (lang_attr g f))
              (out_edges g f "contains")) as [cs ->]; [|eauto].
  intros v Hv. unfold mermaid_child.
  destruct (name_of_ok g f "contains" v S Hv) as [name ->]. eauto.
Qed.

(** The icon of every child line of a file's block is the icon of the
    file's language tag. *)
Lemma mermaid_file_icon (g : DiGraph) (f : string)
      (ls : list mermaid_line) (c nm : string) (i : icon) :
  mermaid_file g f = Ok ls -> In (Child c i nm) ls ->
  i = icon_of (lang_attr g f).
Proof.
  unfold mermaid_file.
  destruct (map_result _ _) as [cs|x] eqn:M; [|discriminate].
  intros [= <-] H.
  destruct H as [H|[H|[H|H]]]; try discriminate H.
  apply in_app_or in H as [H|[H|[]]]; [|discriminate H].
  apply in_concat in H as (block & Hb & Hc).
  destruct (map_result_In _ _ _ _ _ _ M Hb) as (v & _ & E).
  unfold mermaid_child in E. destruct (name_of g v); [|discriminate].
  injection E as <-. destruct Hc as [Hc|[Hc|[]]]; [|discriminate Hc].
  now injection Hc as _ <- _.
Qed.

Lemma lang_of_not_dockerfile (n : string) :
  icon_of (lang_of n) <> Whale.
Proof.
  assert (D : forall x, icon_of (String "." x) <> Whale).
  { intros x. unfold icon_of. simpl.
    destruct (String.eqb x "py"); discriminate. }
  unfold lang_of, OsPath.splitext_ext.
  destruct (existsb _ _); [apply D|discriminate].
Qed.

End ExportFacts.

(** X8: [export_mermaid] never raises on the graph of a build (every child
    it draws has a [name]), and it never draws the Docker icon: the tag
    [parse_file] stores for a [Dockerfile] is [docker], while the exporter
    asks for [Dockerfile]. *)
Theorem X8_mermaid_export_of_a_build (w : world) :
  exists lines,
    export_mermaid (graph (build w init)) = Ok lines
    /\ forall c_id c_name i, In (Child c_id i c_name) lines -> i <> Whale.
Proof.
  pose proof (ShapeFacts.shaped_build w) as S.
  set (g := graph (build w init)) in *.
  unfold export_mermaid.
  destruct (ExportFacts.map_result_ok _ _ (mermaid_file g)
              (nodes_of_type g "file")) as [blocks M];
    [intros f _; now apply ExportFacts.mermaid_file_ok|].
  rewrite M. eexists. split; [reflexivity|].
  intros c nm i H. destruct H as [H|H]; [discriminate H|].
  apply in_app_or in H as [H|H].
  - apply in_concat in H as (block & Hb & Hc).
    destruct (ExportFacts.map_result_In _ _ _ _ _ _ M Hb) as (f & Hf & E).
    rewrite (ExportFacts.mermaid_file_icon g f block c nm i E Hc).
    apply ResolverFacts.nodes_of_type_In in Hf as (a & Ha & Ta).
    apply (ODictFacts.NoDup_In_get String.eqb NxFacts.string_eqb_ok) in Ha;
      [|exact (sh_node_keys S)].
    destruct (sh_nodes S f a Ha) as [(_ & L & _)|(T & _)].
    + unfold lang_attr, node_get. rewrite Ha, L.
      apply ExportFacts.lang_of_not_dockerfile.
    + apply EdgeFacts.has_type_eq in Ta. congruence.
  - apply in_map_iff in H as (e & E & _). discriminate E.
Qed.

(** X9: [export_yaml_whole_repo] never raises on the graph of a build; its
    data has one entry per file node, in the order of the node table, each
    under the node's path; and no entry carries an empty [definitions] or
    [references_to] list, the key being deleted instead. *)
Theorem X9_yaml_export_of_a_build (w : world) (include_source : bool) :
  exists entries,
    export_yaml_whole_repo w include_source (graph (build w init))
    = Ok entries
    /\ map fe_path entries = nodes_of_type (graph (build w init)) "file"
    /\ forall e, In e entries ->
                 fe_definitions e <> Some []
                 /\ fe_references_to e <> Some [].
Proof.
  pose proof (ShapeFacts.shaped_build w) as S.
  set (g := graph (build w init)) in *.
  unfold export_yaml_whole_repo.
  destruct (ExportFacts.map_result_ok _ _ (yaml_entry w include_source g)
              (nodes_of_type g "file")) as [entries M];
    [intros f _; now apply ExportFacts.yaml_entry_ok|].
  exists entries. split; [exact M|]. split.
  - apply (ExportFacts.map_result_map _ _ _ fe_path _ _) with (2 := M).
    intros f e E. now apply ExportFacts.yaml_entry_fields in E.
  - intros e He.
    destruct (ExportFacts.map_result_In _ _ _ _ _ _ M He) as (f & _ & E).
    now apply ExportFacts.yaml_entry_fields in E.
Qed.

(** ** Running a pass again *)

Module AgainFacts.
Import PyStrFacts NxFacts ResolverFacts ExtractFacts ShapeFacts.

Lemma fold_left_fixed (A B : Type) (f : A -> B -> A) (l : list B) (a : A) :
  (forall b, In b l -> f a b = a) -> fold_left f l a = a.
Proof.
  induction l as [|b l IH]; intros H; simpl; [reflexivity|].
  rewrite (H b (or_introl eq_refl)). apply IH.
  intros b' Hb'. apply H. now right.
Qed.

Lemma add_edge_fixed (g : DiGraph) (u v r : string) :
  has_node g u = true -> has_node g v = true ->
  edge_get g u v = Some r -> add_edge g u v r = g.
Proof.
  intros Hu Hv He. unfold add_edge. rewrite Hu, Hv.
  unfold edge_get in He.
  rewrite (ODictFacts.set_get_id edge_eqb edge_eqb_ok _ _ _ He).
  now destruct g.
Qed.

Lemma add_node_fixed (g : DiGraph) (n : string) (a x : attrs) :
  node_get g n = Some a -> update_attrs a x = a -> add_node g n x = g.
Proof.
  intros Ha Hx. unfold add_node. rewrite Ha, Hx. unfold node_get in Ha.
  rewrite (ODictFacts.set_get_id String.eqb string_eqb_ok _ _ _ Ha).
  now destruct g.
Qed.

Lemma resolve_fixed (w : world) (g : DiGraph) :
  resolve w (resolve w g) = resolve w g.
Proof.
  unfold resolve at 1.
  assert (Ei : build_index (resolve w g) = build_index g)
    by (unfold build_index; now rewrite resolve_nodes).
  assert (Ef : nodes_of_type (resolve w g) "file" = nodes_of_type g "file")
    by (unfold nodes_of_type; now rewrite resolve_nodes).
  assert (Hn : forall m, has_node (resolve w g) m = has_node g m)
    by (intros m; unfold has_node; now rewrite resolve_nodes).
  rewrite Ei, Ef. apply fold_left_fixed. intros f Hf.
  unfold scan_file. destruct (read_text w f) as [content|x] eqn:R;
    [|reflexivity].
  apply fold_left_fixed. intros [name ts] Hd. unfold scan_name.
  destruct (3 <? String.length name)%nat eqn:L; [|reflexivity].
  destruct (contains content name) eqn:C; [|reflexivity]. simpl.
  apply Nat.ltb_lt in L.
  unfold link_targets. apply fold_left_fixed. intros t Ht.
  destruct (startswith t f) eqn:G; [reflexivity|]. simpl.
  apply add_edge_fixed.
  - rewrite Hn. apply nodes_of_type_In in Hf as (a & Ha & _).
    eapply has_node_In; eauto.
  - rewrite Hn. exact (build_index_known g _ _ _ Hd Ht).
  - eapply ScanFacts.resolve_hit; eauto.
Qed.

Lemma path_is_not_id (rel x : string) : rel <> (rel ++ "::" ++ x)%string.
Proof.
  intros E. apply (f_equal String.length) in E.
  rewrite !length_app in E. simpl in E. lia.
Qed.

Lemma node_get_captures_path (rel ext : string)
      (caps : list (ts_node * string)) (g : DiGraph) :
  has_node g rel = true ->
  node_get (fold_left (process_capture rel ext) caps g) rel = node_get g rel.
Proof.
  intros H.
  apply (fold_left_inv _ _
           (fun x => node_get x rel = node_get g rel
                     /\ has_node x rel = true)); [|now split].
  intros x cap _ [Ex Hx]. unfold process_capture.
  destruct (String.eqb (snd cap) "name"); [|now split].
  destruct (is_valid_identifier _); simpl; [|now split].
  split; [|now apply has_node_add_definition].
  rewrite node_get_add_definition_other; [exact Ex|exact Hx|].
  apply path_is_not_id.
Qed.

Lemma captures_fixed (rel ext : string) (caps : list (ts_node * string))
      (g : DiGraph) :
  fold_left (process_capture rel ext) caps
            (fold_left (process_capture rel ext) caps g)
  = fold_left (process_capture rel ext) caps g.
Proof.
  apply fold_left_fixed. intros cap Hin.
  unfold process_capture at 1.
  destruct (String.eqb (snd cap) "name") eqn:N; [|reflexivity].
  destruct (is_valid_identifier _) eqn:V; simpl; [|reflexivity].
  apply BuildFacts.add_definition_settled.
  apply BuildFacts.settled_after; try assumption.
  now apply String.eqb_eq.
Qed.

Lemma parse_file_graph_fixed (w : world) (rel : string) (b : builder) :
  graph (parse_file w rel (parse_file w rel b))
  = graph (parse_file w rel b).
Proof.
  unfold parse_file.
  destruct (lookup_config (OsPath.basename rel)) as [e|] eqn:L;
    [|reflexivity].
  set (fa := file_attrs (OsPath.splitext_ext (OsPath.basename rel))).
  set (g1 := add_node (graph b) rel fa).
  assert (H1 : node_get g1 rel
               = Some (update_attrs
                         (match node_get (graph b) rel with
                          | Some o => o
                          | None => no_attrs
                          end) fa))
    by apply node_get_add_node_same.
  assert (U : forall o, update_attrs (update_attrs o fa) fa
                        = update_attrs o fa) by (intros [? ? ?]; reflexivity).
  destruct (load_captures w rel e) as [caps|x]; simpl.
  - set (g2 := fold_left _ caps g1).
    assert (H2 : node_get g2 rel = node_get g1 rel).
    { apply node_get_captures_path. apply has_node_add_node_same. }
    rewrite (add_node_fixed g2 rel _ fa (eq_trans H2 H1) (U _)).
    apply captures_fixed.
  - fold g1. apply (add_node_fixed g1 rel _ fa H1 (U _)).
Qed.

Lemma out_parse_file (w : world) (rel : string) (b : builder) :
  out (parse_file w rel b) = out b ++ warning_of w rel.
Proof.
  unfold parse_file, warning_of.
  destruct (lookup_config (OsPath.basename rel)) as [e|];
    [|now rewrite app_nil_r].
  destruct (load_captures w rel e); simpl; [now rewrite app_nil_r|].
  reflexivity.
Qed.

Lemma out_files (w : world) (d : string) (files : list string) (b : builder) :
  out (fold_left (fun b file => parse_file w (OsPath.join d file) b) files b)
  = out b ++ flat_map (warning_of w) (map (OsPath.join d) files).
Proof.
  revert b. induction files as [|f files IH]; intros b; simpl.
  - now rewrite app_nil_r.
  - rewrite IH, out_parse_file. now rewrite app_assoc.
Qed.

Lemma out_ingest (w : world) (b : builder) :
  out (ingest w b) = out b ++ flat_map (warning_of w) (walked_paths w).
Proof.
  unfold ingest, walked_paths. generalize (walk w). intros dirs. revert b.
  induction dirs as [|[d files] dirs IH]; intros b; simpl.
  - now rewrite app_nil_r.
  - rewrite IH. destruct (ignored (root_of w d)); simpl; [reflexivity|].
    rewrite out_files, flat_map_app. now rewrite app_assoc.
Qed.

End AgainFacts.

(** X10: [build_cross_reference] run a second time changes nothing: the
    graph, edge order included, is the one the first run left. *)
Theorem X10_cross_reference_twice (w : world) (b : builder) :
  build_cross_reference w (build_cross_reference w b)
  = build_cross_reference w b.
Proof.
  unfold build_cross_reference. simpl.
  now rewrite AgainFacts.resolve_fixed.
Qed.

(** X11: [parse_file] run a second time on the same file leaves the graph
    as the first run made it; only a warning, if the file fails, is printed
    again. *)
Theorem X11_parse_file_twice (w : world) (rel_path : string) (b : builder) :
  graph (parse_file w rel_path (parse_file w rel_path b))
  = graph (parse_file w rel_path b)
  /\ out (parse_file w rel_path (parse_file w rel_path b))
     = out (parse_file w rel_path b) ++ warning_of w rel_path.
Proof.
  split; [apply AgainFacts.parse_file_graph_fixed|].
  apply AgainFacts.out_parse_file.
Qed.

(** X12: what a build prints is, after what was printed before, exactly one
    warning for each walked file of a registered format whose reading or
    parsing raised, in the order of the walk; files of ignored directories
    and of unregistered formats print nothing. *)
Theorem X12_warnings_of_a_build (w : world) (b : builder) :
  out (build w b) = out b ++ flat_map (warning_of w) (walked_paths w).
Proof.
  unfold build, build_cross_reference. simpl. apply AgainFacts.out_ingest.
Qed.

(** ** [RepoGraphBuilder] *)

Module RepoFacts.
Import Repo NxFacts.

Lemma substring_split (code : string) (i j : nat) :
  i <= j ->
  substring 0 j code = (substring 0 i code ++ substring i (j - i) code)%string.
Proof.
  revert i j. induction code as [|c code IH]; intros i j H.
  - destruct i, j; simpl; try reflexivity; lia.
  - destruct i as [|i].
    + rewrite Nat.sub_0_r. now destruct j.
    + destruct j as [|j]; [lia|]. simpl. f_equal. apply IH. lia.
Qed.

Lemma length_substring_0 (code : string) (i : nat) :
  i <= String.length code -> String.length (substring 0 i code) = i.
Proof.
  revert i. induction code as [|c code IH]; intros i H; simpl in H.
  - assert (i = 0) by lia. now subst.
  - destruct i as [|i]; [reflexivity|]. simpl. f_equal. apply IH. lia.
Qed.

Lemma utf8_len_wide (s : string) :
  utf8_len s = String.length s + wide_chars s.
Proof.
  induction s as [|c s IH]; simpl; [reflexivity|].
  rewrite IH. destruct (nat_of_ascii c <? 128)%nat; lia.
Qed.

Lemma wide_chars_app (s t : string) :
  wide_chars (s ++ t) = wide_chars s + wide_chars t.
Proof. induction s as [|c s IH]; simpl; [reflexivity|]. rewrite IH. lia. Qed.

Lemma byte_offset_eq (code : string) (i : nat) :
  i <= String.length code ->
  byte_offset code i = i + wide_chars (substring 0 i code).
Proof.
  intros H. unfold byte_offset.
  now rewrite utf8_len_wide, length_substring_0.
Qed.

(** *** Edges *)

Lemma redges_radd_edge (g : RGraph) (u v r : string) :
  redges (radd_edge g u v r) = ODict.set Nx.edge_eqb (redges g) (u, v) r.
Proof.
  unfold radd_edge. simpl.
  destruct (rhas_node g u); simpl;
    match goal with |- context [if ?b then _ else _] => destruct b end;
    reflexivity.
Qed.

Lemma redge_get_same (g : RGraph) (u v r : string) :
  redge_get (radd_edge g u v r) u v = Some r.
Proof.
  unfold redge_get. rewrite redges_radd_edge.
  apply ODictFacts.get_set_same, edge_eqb_ok.
Qed.

Lemma redge_get_other (g : RGraph) (u v r u' v' : string) :
  (u', v') <> (u, v) ->
  redge_get (radd_edge g u v r) u' v' = redge_get g u' v'.
Proof.
  intros H. unfold redge_get. rewrite redges_radd_edge.
  now apply ODictFacts.get_set_other; [apply edge_eqb_ok|].
Qed.

Lemma NoDup_redges_radd_edge (g : RGraph) (u v r : string) :
  NoDup (map fst (redges g)) ->
  NoDup (map fst (redges (radd_edge g u v r))).
Proof.
  intros H. rewrite redges_radd_edge.
  now apply ODictFacts.NoDup_keys_set; [apply edge_eqb_ok|].
Qed.

Lemma calls_added_refl (g : RGraph) : calls_added g g.
Proof. split; [now left|auto]. Qed.

Lemma calls_added_trans (g1 g2 g3 : RGraph) :
  calls_added g1 g2 -> calls_added g2 g3 -> calls_added g1 g3.
Proof.
  intros [A1 N1] [A2 N2]. split; [|auto].
  intros u v. destruct (A2 u v) as [E|E]; [|now right].
  rewrite E. apply A1.
Qed.

Lemma calls_added_keeps (g g' : RGraph) (u v : string) :
  calls_added g g' -> redge_get g u v = Some "calls" ->
  redge_get g' u v = Some "calls".
Proof. intros [A _] E. destruct (A u v); congruence. Qed.

Lemma calls_added_radd_edge (g : RGraph) (u v : string) :
  calls_added g (radd_edge g u v "calls").
Proof.
  split; [|apply NoDup_redges_radd_edge].
  intros u' v'. destruct (Nx.edge_eqb (u', v') (u, v)) eqn:E.
  - apply edge_eqb_ok in E. injection E as -> ->.
    right. apply redge_get_same.
  - left. apply redge_get_other. intros H. apply edge_eqb_ok in H. congruence.
Qed.

Lemma calls_added_link_calls (f : string) (ts : list string) (g : RGraph) :
  calls_added g (link_calls f g ts).
Proof.
  unfold link_calls.
  apply (fold_left_inv _ _ (calls_added g)); [|apply calls_added_refl].
  intros x t _ Hx. destruct (negb (String.eqb t f)); [|exact Hx].
  eapply calls_added_trans; [exact Hx|apply calls_added_radd_edge].
Qed.

Lemma calls_added_link_call (d : ODict.t string (list string))
      (f c : string) (g : RGraph) :
  calls_added g (link_call d f g c).
Proof.
  unfold link_call. destruct (ODict.get String.eqb d c);
    [apply calls_added_link_calls|apply calls_added_refl].
Qed.

Lemma calls_added_fold (d : ODict.t string (list string)) (f : string)
      (cs : list string) (g : RGraph) :
  calls_added g (fold_left (link_call d f) cs g).
Proof.
  apply (fold_left_inv _ _ (calls_added g)); [|apply calls_added_refl].
  intros x c _ Hx. eapply calls_added_trans; [exact Hx|].
  apply calls_added_link_call.
Qed.

Lemma link_calls_hit (f t : string) (ts : list string) (g : RGraph) :
  In t ts -> t <> f -> redge_get (link_calls f g ts) f t = Some "calls".
Proof.
  intros Hin N. apply in_split in Hin as (l1 & l2 & ->).
  unfold link_calls. rewrite fold_left_app. simpl.
  apply String.eqb_neq in N. rewrite N. simpl.
  eapply calls_added_keeps; [apply (calls_added_link_calls f l2)|].
  apply redge_get_same.
Qed.

Lemma fold_link_call_hit (d : ODict.t string (list string))
      (f c t : string) (ts cs : list string) (g : RGraph) :
  In c cs -> ODict.get String.eqb d c = Some ts -> In t ts -> t <> f ->
  redge_get (fold_left (link_call d f) cs g) f t = Some "calls".
Proof.
  intros Hc Hd Ht N. apply in_split in Hc as (l1 & l2 & ->).
  rewrite fold_left_app. simpl.
  eapply calls_added_keeps; [apply calls_added_fold|].
  unfold link_call at 1. rewrite Hd. now apply link_calls_hit.
Qed.

(** One turn of the loop over the file nodes, when it returns. *)
Lemma resolve_file_returned (w : rworld) (s s' : rstate) (f : string) :
  resolve_file w s f = Returned s' ->
  global_definitions s' = global_definitions s
  /\ calls_added (rgraph s) (rgraph s').
Proof.
  unfold resolve_file. destruct (negb (rw_exists w f)).
  - intros [= <-]. split; [reflexivity|apply calls_added_refl].
  - destruct (rw_read w f) as [code|e]; [|discriminate].
    destruct (rw_calls w code) as [caps|e]; [|discriminate].
    intros [= <-]. split; [reflexivity|apply calls_added_fold].
Qed.

Lemma for_each_resolve_returned (w : rworld) (fs : list string)
      (s s' : rstate) :
  for_each (resolve_file w) fs s = Returned s' ->
  global_definitions s' = global_definitions s
  /\ calls_added (rgraph s) (rgraph s').
Proof.
  revert s. induction fs as [|f fs IH]; intros s H; simpl in H.
  - injection H as <-. split; [reflexivity|apply calls_added_refl].
  - destruct (resolve_file w s f) as [s1|s1 e] eqn:R; [|discriminate].
    apply resolve_file_returned in R as [G1 C1].
    apply IH in H as [G2 C2]. split; [congruence|].
    eapply calls_added_trans; eauto.
Qed.

Lemma for_each_app (A : Type) (body : rstate -> A -> run) (l1 l2 : list A)
      (s : rstate) :
  for_each body (l1 ++ l2) s
  = match for_each body l1 s with
    | Returned s1 => for_each body l2 s1
    | Raised s1 e => Raised s1 e
    end.
Proof.
  revert s. induction l1 as [|x l1 IH]; intros s; simpl; [reflexivity|].
  destruct (body s x); [apply IH|reflexivity].
Qed.

Lemma rout_edges_In (g : RGraph) (f r v : string) :
  In v (rout_edges g f r) -> In ((f, v), r) (redges g).
Proof.
  unfold rout_edges. intros H.
  apply in_map_iff in H as ([[u' v'] r'] & E & H). simpl in E. subst v'.
  apply filter_In in H as [H C]. simpl in C.
  apply andb_true_iff in C as [Cu Cr].
  apply String.eqb_eq in Cu, Cr. now subst.
Qed.

End RepoFacts.

Import Repo RepoScenarios.

(** X13: [RepoGraphBuilder] slices the decoded text at the byte offsets
    tree-sitter reports.  For a token at the characters [i] to [j], what it
    takes starts later by the number of two-byte characters before the
    token and is longer by the number of them inside it; it is the token's
    own text when no character up to its end is beyond ASCII. *)
Theorem X13_names_are_sliced_at_byte_offsets (code : string) (i j : nat) :
  i <= j -> j <= String.length code ->
  slice code (byte_offset code i) (byte_offset code j)
  = substring (i + wide_chars (substring 0 i code))
              ((j - i) + wide_chars (substring i (j - i) code)) code
  /\ (wide_chars (substring 0 j code) = 0 ->
      slice code (byte_offset code i) (byte_offset code j)
      = substring i (j - i) code).
Proof.
  intros Hij Hj.
  assert (W : wide_chars (substring 0 j code)
              = wide_chars (substring 0 i code)
                + wide_chars (substring i (j - i) code)).
  { now rewrite (RepoFacts.substring_split code i j Hij),
                RepoFacts.wide_chars_app. }
  assert (E : slice code (byte_offset code i) (byte_offset code j)
              = substring (i + wide_chars (substring 0 i code))
                  ((j - i) + wide_chars (substring i (j - i) code)) code).
  { unfold slice.
    rewrite (RepoFacts.byte_offset_eq code i) by lia.
    rewrite (RepoFacts.byte_offset_eq code j) by lia.
    rewrite W. f_equal. lia. }
  split; [exact E|]. intros Z. rewrite E.
  assert (Z1 : wide_chars (substring 0 i code) = 0) by lia.
  assert (Z2 : wide_chars (substring i (j - i) code) = 0) by lia.
  now rewrite Z1, Z2, !Nat.add_0_r.
Qed.

Lemma X13_names_are_sliced_at_byte_offsets_witness :
  11 <= 14 /\ 14 <= String.length accent_code
  /\ substring 11 (14 - 11) accent_code = "run"
  /\ slice accent_code (byte_offset accent_code 11)
           (byte_offset accent_code 14) = "un(".
Proof.
  assert (H1 : 11 <= 14) by lia.
  assert (H2 : 14 <= String.length accent_code) by (vm_compute; lia).
  split; [exact H1|]. split; [exact H2|]. split; [reflexivity|].
  exact (proj1 (X13_names_are_sliced_at_byte_offsets accent_code 11 14
                  H1 H2)).
Defined.

(** X14: when [resolve_dependencies] returns, a file that can be read and
    calls a name has a [calls] edge to every node [global_definitions]
    lists under that name, other than the file itself.  The graph keeps one
    edge per pair, so for a definition of the file itself the [calls] edge
    takes the place of its [defines] edge, and the definition is no longer
    among the file's [defines] children that the exporters list. *)
Theorem X14_calls_take_the_place_of_defines
        (w : rworld) (s s' : rstate) (f code c t : string)
        (captures : list rcapture) (ts : list string) :
  iterates_sets w ->
  NoDup (map fst (redges (rgraph s))) ->
  resolve_dependencies w s = Returned s' ->
  In f (rfile_nodes (rgraph s)) ->
  rw_exists w f = true ->
  rw_read w f = Ok code ->
  rw_calls w code = Ok captures ->
  In c (call_names code captures) ->
  ODict.get String.eqb (global_definitions s) c = Some ts ->
  In t ts -> t <> f ->
  redge_get (rgraph s') f t = Some "calls"
  /\ ~ In t (rout_edges (rgraph s') f "defines").
Proof.
  intros Hset Hnd Hres Hf Hex Hrd Hcl Hc Hd Ht Hne.
  unfold resolve_dependencies in Hres.
  apply in_split in Hf as (l1 & l2 & El). rewrite El in Hres.
  rewrite RepoFacts.for_each_app in Hres.
  destruct (for_each (resolve_file w) l1 s) as [sa|sa e] eqn:Ra;
    [|discriminate].
  apply RepoFacts.for_each_resolve_returned in Ra as [Ga Ca].
  simpl in Hres.
  destruct (resolve_file w sa f) as [sb|sb e] eqn:Rb; [|discriminate].
  pose proof (RepoFacts.resolve_file_returned w sa sb f Rb) as [Gb Cb].
  apply RepoFacts.for_each_resolve_returned in Hres as [Gc Cc].
  assert (E : redge_get (rgraph sb) f t = Some "calls").
  { unfold resolve_file in Rb. rewrite Hex, Hrd, Hcl in Rb. simpl in Rb.
    injection Rb as <-. simpl.
    apply (RepoFacts.fold_link_call_hit _ f c t ts); try assumption.
    - now apply Hset.
    - now rewrite Ga. }
  assert (E' : redge_get (rgraph s') f t = Some "calls")
    by (eapply RepoFacts.calls_added_keeps; eauto).
  split; [exact E'|]. intros Hin.
  apply RepoFacts.rout_edges_In in Hin.
  apply (ODictFacts.NoDup_In_get Nx.edge_eqb NxFacts.edge_eqb_ok) in Hin.
  - unfold redge_get in E'. congruence.
  - apply (proj2 Cc), (proj2 Cb), (proj2 Ca), Hnd.
Qed.

Lemma X14_calls_take_the_place_of_defines_witness :
  redge_get (rgraph s_parsed) "lib.py" "lib.py::helper" = Some "defines"
  /\ In "helper" (call_names lib_code [ (19, 25, "call.name");
                                        (19, 27, "call.site") ])
  /\ exists s', resolve_dependencies rw_demo s_parsed = Returned s'
       /\ redge_get (rgraph s') "lib.py" "lib.py::helper" = Some "calls"
       /\ ~ In "lib.py::helper" (rout_edges (rgraph s') "lib.py" "defines").
Proof.
  assert (Hc : In "helper" (call_names lib_code [ (19, 25, "call.name");
                                                  (19, 27, "call.site") ]))
    by (left; reflexivity).
  split; [reflexivity|]. split; [exact Hc|].
  eexists. split; [reflexivity|].
  apply (X14_calls_take_the_place_of_defines rw_demo s_parsed _
           "lib.py" lib_code "helper" "lib.py::helper"
           [ (19, 25, "call.name"); (19, 27, "call.site") ]
           ["lib.py::helper"]).
  - intros l x. apply nodup_In.
  - repeat constructor. intros [].
  - reflexivity.
  - left. reflexivity.
  - reflexivity.
  - reflexivity.
  - reflexivity.
  - exact Hc.
  - reflexivity.
  - left. reflexivity.
  - discriminate.
Defined.

(** X15: [RepoGraphBuilder.parse_file] catches nothing: the first walked
    [.py] file that cannot be read ends [build] with its exception, the
    builder being left as the files before it made it; the files after it
    are not parsed and no dependency is resolved. *)
Theorem X15_unreadable_file_ends_the_build
        (w : rworld) (s s1 : rstate) (l1 l2 : list string) (rel_path : string)
        (e : exn) :
  py_paths w = l1 ++ rel_path :: l2 ->
  for_each (rparse_file w) l1 s = Returned s1 ->
  rw_read w rel_path = Raise e ->
  rbuild w s = Raised s1 e.
Proof.
  intros Hp H1 Hr. unfold rbuild.
  rewrite Hp, RepoFacts.for_each_app, H1. simpl.
  unfold rparse_file. now rewrite Hr.
Qed.

Lemma X15_unreadable_file_ends_the_build_witness :
  py_paths rw_broken = ["lib.py"] ++ "notes.py" :: ["main.py"]
  /\ rw_read rw_broken "notes.py" = Raise "UnicodeDecodeError"
  /\ exists s1, rbuild rw_broken rinit = Raised s1 "UnicodeDecodeError"
                /\ rnode_get (rgraph s1) "main.py" = None.
Proof.
  split; [reflexivity|]. split; [reflexivity|].
  eexists. split.
  - apply (X15_unreadable_file_ends_the_build rw_broken rinit _
             ["lib.py"] ["main.py"] "notes.py" "UnicodeDecodeError");
      reflexivity.
  - reflexivity.
Defined.
